(** * moneybot: market state valuation, trade sizing, legality filter, fund cycle

    A shallow embedding of [moneybot/market/state.py],
    [moneybot/market_adapters/__init__.py] and [moneybot/Fund.py].

    Modelling conventions.
    - Python floats are idealised as exact rationals ([Q]); a division whose
      divisor is zero raises [ZeroDivisionError], as in Python.
    - Python exceptions are values of [exn]; a computation is a function from
      a [world] to a [result] and the world it leaves behind, so that what a
      call logged or mutated before raising stays visible.
    - Balance dictionaries are the only objects the code mutates after
      construction ([simulate_trades]); they live in a store, addressed by
      reference.  [chart_data] is only ever read and is kept as a value.
    - [logger.warning] and [print] append to the world's log. *)

From Stdlib Require Import QArith Qround Qabs Lqa.
From stdpp Require Import gmap strings list fin_maps.

Local Open Scope string_scope.

(** ** Exceptions, results, the world *)

Inductive exn : Type :=
| KeyError (key : string)
| ZeroDivisionError
| TypeError (what : string)
| NameError (name : string)
| RuntimeError (what : string)
| NotImplementedError
| AttributeError (attr : string)
| DanglingReference.

Inductive result (A : Type) : Type :=
| Ok (a : A)
| Raise (e : exn).
Arguments Ok {A} a.
Arguments Raise {A} e.

Definition loc := positive.

(** ** ProposedTrade

    A trade as the two modules use it.  [state.py] reads and writes the
    [sell_*]/[buy_*] attributes, [market_adapters] reads [from_coin],
    [to_coin], [bid_amount] and [ask_amount].  The attributes the engine
    writes hold [None] until they are set. *)
Module ProposedTrade.

Record t : Type := mk {
  sell_coin : string;
  buy_coin : string;
  from_coin : string;
  to_coin : string;
  fiat : string;
  market_name : string;
  market_base_currency : string;
  fiat_value_to_trade : Q;
  fee : Q;
  bid_amount : Q;
  ask_amount : Q;
  market_price : option Q;
  price : option Q;
  sell_amount : option Q;
  buy_amount : option Q
}.

(** Attribute assignments [trade.attr = v]. *)
Definition with_market_price (trade : t) (v : option Q) : t :=
  mk (sell_coin trade) (buy_coin trade) (from_coin trade) (to_coin trade)
     (fiat trade) (market_name trade) (market_base_currency trade)
     (fiat_value_to_trade trade) (fee trade) (bid_amount trade)
     (ask_amount trade) v (price trade) (sell_amount trade) (buy_amount trade).

Definition with_price (trade : t) (v : option Q) : t :=
  mk (sell_coin trade) (buy_coin trade) (from_coin trade) (to_coin trade)
     (fiat trade) (market_name trade) (market_base_currency trade)
     (fiat_value_to_trade trade) (fee trade) (bid_amount trade)
     (ask_amount trade) (market_price trade) v (sell_amount trade)
     (buy_amount trade).

Definition with_sell_amount (trade : t) (v : option Q) : t :=
  mk (sell_coin trade) (buy_coin trade) (from_coin trade) (to_coin trade)
     (fiat trade) (market_name trade) (market_base_currency trade)
     (fiat_value_to_trade trade) (fee trade) (bid_amount trade)
     (ask_amount trade) (market_price trade) (price trade) v
     (buy_amount trade).

Definition with_buy_amount (trade : t) (v : option Q) : t :=
  mk (sell_coin trade) (buy_coin trade) (from_coin trade) (to_coin trade)
     (fiat trade) (market_name trade) (market_base_currency trade)
     (fiat_value_to_trade trade) (fee trade) (bid_amount trade)
     (ask_amount trade) (market_price trade) (price trade)
     (sell_amount trade) v.

End ProposedTrade.

Abbreviation ProposedTrade := ProposedTrade.t.

(** ** The world: store and log *)

Inductive event : Type :=
| LoggerWarning (msg : string) (args : list ProposedTrade)
| Printed (msg : string) (args : list ProposedTrade).

Record world : Type := World {
  heap : gmap loc (gmap string Q);
  log : list event
}.

Definition M (A : Type) : Type := world -> result A * world.

Definition ret {A} (a : A) : M A := fun w => (Ok a, w).

Definition raise {A} (e : exn) : M A := fun w => (Raise e, w).

Definition bind {A B} (m : M A) (k : A -> M B) : M B :=
  fun w =>
    match m w with
    | (Ok a, w') => k a w'
    | (Raise e, w') => (Raise e, w')
    end.

Declare Scope py_scope.
Delimit Scope py_scope with py.
Notation "x <- m ;; k" := (bind m (fun x => k))
  (at level 100, m at next level, right associativity) : py_scope.
Notation "m ;; k" := (bind m (fun _ => k))
  (at level 100, right associativity) : py_scope.
Local Open Scope py_scope.

Definition emit (e : event) : M unit :=
  fun w => (Ok tt, World (heap w) (log w ++ [e])).

Definition logger_warning (msg : string) (args : list ProposedTrade) : M unit :=
  emit (LoggerWarning msg args).

Definition print (msg : string) (args : list ProposedTrade) : M unit :=
  emit (Printed msg args).

(** A [for] loop threading an accumulator. *)
Fixpoint for_each {A B} (body : B -> A -> M B) (items : list A) (acc : B) : M B :=
  match items with
  | [] => ret acc
  | x :: rest => acc' <- body acc x ;; for_each body rest acc'
  end.

(** Binding the positional arguments of a call to a one-parameter method:
    any other number of arguments raises before the body runs. *)
Definition call1 {A B} (method : A -> M B) (args : list A) : M B :=
  match args with
  | [a] => method a
  | [] => raise (TypeError "missing 1 required positional argument")
  | _ => raise (TypeError "too many positional arguments")
  end.

(** ** Numbers *)

Definition Qltb (x y : Q) : bool := negb (Qle_bool y x).

(** [x / y] on floats. *)
Definition div (x y : Q) : M Q :=
  if Qeq_bool y 0 then raise ZeroDivisionError else ret (x / y)%Q.

(** Reading a numeric attribute for arithmetic: [None] is not a number. *)
Definition num (attr : option Q) : M Q :=
  match attr with
  | Some q => ret q
  | None => raise (TypeError "unsupported operand type(s): NoneType")
  end.

(** [round(x, 2)]: nearest multiple of 1/100, ties to the even one. *)
Definition round_half_even (q : Q) : Z :=
  let f := Qfloor q in
  let r := (q - inject_Z f)%Q in
  match (r ?= 1 # 2)%Q with
  | Lt => f
  | Gt => (f + 1)%Z
  | Eq => if Z.even f then f else (f + 1)%Z
  end.

Definition round2 (q : Q) : Q := (inject_Z (round_half_even (q * 100)) / 100)%Q.

(** ** Dictionaries in the store *)

Definition deref (d : loc) : M (gmap string Q) :=
  fun w =>
    match heap w !! d with
    | Some m => (Ok m, w)
    | None => (Raise DanglingReference, w)
    end.

(** [d[key]] *)
Definition dict_get (d : loc) (key : string) : M Q :=
  m <- deref d ;;
  match m !! key with
  | Some v => ret v
  | None => raise (KeyError key)
  end.

(** [key in d] *)
Definition dict_mem (d : loc) (key : string) : M bool :=
  m <- deref d ;;
  ret (bool_decide (is_Some (m !! key))).

(** [d[key] = v] *)
Definition dict_set (d : loc) (key : string) (v : Q) : M unit :=
  m <- deref d ;;
  fun w => (Ok tt, World (<[d := <[key := v]> m]> (heap w)) (log w)).

(** [d.copy()]: a new dictionary with the same items. *)
Definition dict_copy (d : loc) : M loc :=
  m <- deref d ;;
  fun w =>
    let l := fresh (dom (heap w)) in
    (Ok l, World (<[l := m]> (heap w)) (log w)).

(** Subscripting the read-only chart dictionaries. *)
Definition getitem {V} (d : gmap string V) (key : string) : M V :=
  match d !! key with
  | Some v => ret v
  | None => raise (KeyError key)
  end.

(** ** Unpacking and string helpers *)

(** A value, or the [ValueError] of an unpacking assignment whose right
    side has too few items. *)
Inductive checked (A : Type) : Type :=
| Fine (a : A)
| ValueError (what : string).
Arguments Fine {A} a.
Arguments ValueError {A} what.

(** [s.split(sep, 1)] when [sep] occurs in [s]: the text before its first
    occurrence and the text after it; [None] when it does not occur (the
    split then has a single item). *)
Fixpoint split_once (sep : Ascii.ascii) (s : string) : option (string * string) :=
  match s with
  | EmptyString => None
  | String c rest =>
      if Ascii.eqb c sep then Some (EmptyString, rest)
      else match split_once sep rest with
           | Some (before, after) => Some (String c before, after)
           | None => None
           end
  end.

(** The character ['_'] (code 95). *)
Definition underscore : Ascii.ascii := Ascii.ascii_of_nat 95.

(** [sep in s] *)
Fixpoint contains (sep : Ascii.ascii) (s : string) : bool :=
  match s with
  | EmptyString => false
  | String c rest => Ascii.eqb c sep || contains sep rest
  end.

(** ** MarketState ([moneybot/market/state.py]) *)

Definition datetime := Z.

Module MarketState.

Import ProposedTrade.

Record t : Type := mk {
  chart_data : gmap string (gmap string Q);
  balances : loc;
  time : datetime;
  fiat : string
}.

Definition balance (self : t) (coin : string) : M Q :=
  dict_get (balances self) coin.

(** [key] defaults to ['weighted_average'] in the source; callers here pass
    it explicitly. *)
Definition price (self : t) (market : string) (key : string) : M Q :=
  stats <- getitem (chart_data self) market ;;
  getitem stats key.

(** The f-string [f'{base}_{quote}']. *)
Definition market_of (base quote : string) : string := base +:+ "_" +:+ quote.

(** [market in self.chart_data] *)
Definition in_chart (self : t) (market : string) : bool :=
  bool_decide (is_Some (chart_data self !! market)).

Definition estimate_value (self : t) (coin : string) (amount : Q)
    (reference_coin : string) : M (option Q) :=
  if bool_decide (coin = reference_coin) then ret (Some amount)
  else
    let chart_key := "weighted_average" in
    let market := market_of reference_coin coin in
    if in_chart self market then
      stats <- getitem (chart_data self) market ;;
      reference_per_coin <- getitem stats chart_key ;;
      ret (Some (amount * reference_per_coin)%Q)
    else
      let market := market_of coin reference_coin in
      if in_chart self market then
        stats <- getitem (chart_data self) market ;;
        coin_per_reference <- getitem stats chart_key ;;
        v <- div amount coin_per_reference ;;
        ret (Some v)
      else
        logger_warning
          ("Couldn't find a market for " +:+ reference_coin +:+ ":" +:+ coin
             +:+ "; has it been delisted?") [] ;;
        ret None.

(** [0 if value is None else value] *)
Definition value_or_zero (value : option Q) : Q :=
  match value with
  | None => 0%Q
  | Some v => v
  end.

(** The body of the loop over [balances.items()]. *)
Definition estimate_values_body (self : t) (reference_coin : string)
    (estimated_values : gmap string Q) (item : string * Q) : M (gmap string Q) :=
  let '(coin, amount) := item in
  value <- estimate_value self coin amount reference_coin ;;
  ret (<[coin := value_or_zero value]> estimated_values).

(** The result dictionary is consumed by value; the items are visited in
    the key order of the map. *)
Definition estimate_values (self : t) (balances : loc) (reference_coin : string)
    : M (gmap string Q) :=
  items <- deref balances ;;
  for_each (estimate_values_body self reference_coin) (map_to_list items) ∅.

Definition estimate_total_value (self : t) (balances : loc)
    (reference_coin : string) : M Q :=
  values <- estimate_values self balances reference_coin ;;
  ret (foldl Qplus 0%Q (snd <$> map_to_list values)).

Definition estimate_total_value_usd (self : t) (balances : loc) : M Q :=
  btc_val <- estimate_total_value self balances "BTC" ;;
  usd_btc <- price self "USD_BTC" "weighted_average" ;;
  let usd_val := (btc_val * usd_btc)%Q in
  ret (round2 usd_val).

Definition estimate_price (self : t) (trade : ProposedTrade) : M ProposedTrade :=
  base_price <- price self (market_name trade) "weighted_average" ;;
  let trade := with_market_price trade (Some base_price) in
  if bool_decide (buy_coin trade = market_base_currency trade) then
    p <- div 1 base_price ;;
    ret (with_price trade (Some p))
  else
    ret (with_price trade (Some base_price)).

(** The three-way branch that fixes [trade.sell_amount]. *)
Definition size_sell_leg (self : t) (trade : ProposedTrade) : M ProposedTrade :=
  if bool_decide (sell_coin trade = ProposedTrade.fiat trade) then
    ret (with_sell_amount trade (Some (fiat_value_to_trade trade)))
  else if bool_decide (buy_coin trade = ProposedTrade.fiat trade) then
    held <- balance self (sell_coin trade) ;;
    p <- num (ProposedTrade.price trade) ;;
    let current_value := (held * p)%Q in
    let value_to_sell := (current_value - fiat_value_to_trade trade)%Q in
    p <- num (ProposedTrade.price trade) ;;
    s <- div value_to_sell p ;;
    let trade := with_sell_amount trade (Some s) in
    if Qltb s 0 then ret (with_sell_amount trade (Some 0%Q)) else ret trade
  else
    logger_warning "Proposing trade neither to nor from fiat" [trade] ;;
    raise (RuntimeError "No active exception to reraise").

Definition set_sell_amount (self : t) (trade : ProposedTrade) : M ProposedTrade :=
  trade <- estimate_price self trade ;;
  trade <- size_sell_leg self trade ;;
  s <- num (sell_amount trade) ;;
  s' <- num (sell_amount trade) ;;
  let inv_amt := (s - s' * fee trade)%Q in
  p <- num (ProposedTrade.price trade) ;;
  b <- div inv_amt p ;;
  ret (with_buy_amount trade (Some b)).

(** The inner function [simulate]. *)
Definition simulate (self : t) (proposed : ProposedTrade) (new_balances : loc)
    : M loc :=
  proposed <- set_sell_amount self proposed ;;
  old <- dict_get new_balances (sell_coin proposed) ;;
  s <- num (sell_amount proposed) ;;
  dict_set new_balances (sell_coin proposed) (old - s)%Q ;;
  present <- dict_mem new_balances (buy_coin proposed) ;;
  (if present then ret tt else dict_set new_balances (buy_coin proposed) 0%Q) ;;
  s <- num (sell_amount proposed) ;;
  p <- num (ProposedTrade.price proposed) ;;
  est_trade_amt <- div s p ;;
  old <- dict_get new_balances (buy_coin proposed) ;;
  dict_set new_balances (buy_coin proposed) (old + est_trade_amt)%Q ;;
  ret new_balances.

Definition simulate_trades (self : t) (proposed_trades : list ProposedTrade)
    : M loc :=
  new_balances <- dict_copy (balances self) ;;
  let new_proposed := proposed_trades in
  for_each (fun new_balances proposed => simulate self proposed new_balances)
    new_proposed new_balances.

(** [frozenset(coin for (coin, balance) in self.balances.items() if balance > 0)] *)
Definition _held_coins (self : t) : M (gset string) :=
  items <- deref (balances self) ;;
  ret (dom (filter (fun item : string * Q => Qltb 0 item.2 = true) items)).

(** [base, quote = market_name.split('_', 1)] *)
Definition _coin_names (market_name : string) : checked (string * string) :=
  match split_once underscore market_name with
  | Some (base, quote) => Fine (base, quote)
  | None => ValueError "not enough values to unpack (expected 2, got 1)"
  end.

(** The chart keys that start with the fiat symbol. *)
Definition _available_markets (self : t) : gset string :=
  filter (fun market : string => String.prefix (fiat self) market = true)
         (dom (chart_data self)).

Definition only_holding (self : t) (coin : string) : M bool :=
  held <- _held_coins self ;;
  ret (bool_decide (held = {[ coin ]})).

(** [frozenset(self._coin_names(m)[1] for m in markets)] *)
Fixpoint quote_coins (markets : list string) : checked (gset string) :=
  match markets with
  | [] => Fine ∅
  | m :: rest =>
      match _coin_names m with
      | ValueError what => ValueError what
      | Fine names =>
          match quote_coins rest with
          | Fine coins => Fine ({[ names.2 ]} ∪ coins)
          | ValueError what => ValueError what
          end
      end
  end.

Definition available_coins (self : t) : checked (gset string) :=
  let markets := _available_markets self in
  match quote_coins (elements markets) with
  | Fine coins => Fine (coins ∪ {[ fiat self ]})
  | ValueError what => ValueError what
  end.

(** [self.available_coins() - self._held_coins()]: the left operand is
    evaluated first. *)
Definition available_coins_not_held (self : t) : M (checked (gset string)) :=
  match available_coins self with
  | ValueError what => ret (ValueError what)
  | Fine available =>
      held <- _held_coins self ;;
      ret (Fine (available ∖ held))
  end.

(** [self._held_coins() & self.available_coins()] *)
Definition held_coins_with_chart_data (self : t) : M (checked (gset string)) :=
  held <- _held_coins self ;;
  match available_coins self with
  | ValueError what => ret (ValueError what)
  | Fine available => ret (Fine (held ∩ available))
  end.

End MarketState.

Abbreviation MarketState := MarketState.t.

(** ** MarketAdapter ([moneybot/market_adapters/__init__.py]) *)

(** A generator object made by [filter_legal]: the trades not yet visited
    and the market state it closes over.  Making it runs no code; each
    [next] resumes the loop. *)
Record generator : Type := Generator {
  pending : list ProposedTrade;
  gen_market_state : MarketState
}.

(** The methods a market adapter answers to, looked up on the instance:
    a subclass may replace [is_legal] without touching the filtering loop. *)
Module Adapter.

Class ops : Type := {
  get_market_state : datetime -> M MarketState;
  get_balances : M loc;
  execute : generator -> MarketState -> M unit;
  is_legal : ProposedTrade -> MarketState -> M bool
}.

End Adapter.

Module MarketAdapter.

Import ProposedTrade.

Definition get_balances : M loc := raise NotImplementedError.

Definition execute (proposed_trades : generator) (market_state : MarketState)
    : M unit :=
  raise NotImplementedError.

(** [not proposed.price]: unset or zero. *)
Definition falsy (attr : option Q) : bool :=
  match attr with
  | None => true
  | Some q => Qeq_bool q 0
  end.

Definition is_legal (proposed : ProposedTrade) (market_state : MarketState)
    : M bool :=
  if falsy (price proposed) then
    print "WARN: Filtering out proposed trade: trade has no price. Proposed"
          [proposed] ;;
    ret false
  else
    held <- dict_get (MarketState.balances market_state) (from_coin proposed) ;;
    if Qltb held (bid_amount proposed) then
      (* the arguments of [print] are evaluated first; [balances] is bound
         neither in the method nor in the module *)
      raise (NameError "balances")
    else if Qltb (bid_amount proposed) 0 || Qltb (ask_amount proposed) 0 then
      print "WARN: Filtering out proposed trade: bid/ask amounts zero or negative. Proposed"
            [proposed] ;;
      ret false
    else if (bool_decide (from_coin proposed = fiat proposed)
               && Qltb (bid_amount proposed) (1 # 10000))
            || (bool_decide (to_coin proposed = fiat proposed)
                  && Qltb (ask_amount proposed) (1 # 10000)) then
      print "WARN: Filtering out proposed trade: transaction too small. Proposed"
            [proposed] ;;
      ret false
    else if negb (MarketState.in_chart market_state (market_name proposed)) then
      print "WARN: Filtering out proposed trade: market name not in chart_data. Proposed"
            [proposed] ;;
      ret false
    else ret true.

Section Filtering.
Context {self : Adapter.ops}.

Definition filter_legal (proposed_trades : list ProposedTrade)
    (market_state : MarketState) : generator :=
  Generator proposed_trades market_state.

(** [next(g)]: run the loop up to its next [yield]; [None] is
    [StopIteration]. *)
Fixpoint next_from (market_state : MarketState) (todo : list ProposedTrade)
    : M (option (ProposedTrade * generator)) :=
  match todo with
  | [] => ret None
  | proposed :: rest =>
      legal <- Adapter.is_legal proposed market_state ;;
      if legal then ret (Some (proposed, Generator rest market_state))
      else next_from market_state rest
  end.

Definition next (g : generator) : M (option (ProposedTrade * generator)) :=
  next_from (gen_market_state g) (pending g).

(** [list(g)]: take from the generator until it stops. *)
Fixpoint exhaust_from (market_state : MarketState)
    (todo : list ProposedTrade) : M (list ProposedTrade) :=
  match todo with
  | [] => ret []
  | proposed :: rest =>
      legal <- Adapter.is_legal proposed market_state ;;
      survivors <- exhaust_from market_state rest ;;
      ret (if legal then proposed :: survivors else survivors)
  end.

Definition exhaust (g : generator) : M (list ProposedTrade) :=
  exhaust_from (gen_market_state g) (pending g).
End Filtering.

(** The class as written: no [get_market_state] attribute, abstract
    [get_balances] and [execute]. *)
Definition base : Adapter.ops := {|
  Adapter.get_market_state := fun _ => raise (AttributeError "get_market_state");
  Adapter.get_balances := get_balances;
  Adapter.execute := execute;
  Adapter.is_legal := is_legal
|}.

End MarketAdapter.

(** ** Fund ([moneybot/Fund.py]) *)

Module Strategy.

Class ops (MarketHistory : Type) : Type := {
  trade_interval : Z;
  (** [None] when the strategy returns nothing. *)
  propose_trades : MarketState -> MarketHistory -> M (option (list ProposedTrade))
}.

End Strategy.

Module Fund.

Section Fund.
Context {MarketHistoryT : Type}.
Context (strategy : Strategy.ops MarketHistoryT).
Context (adapter : Adapter.ops).
Context (history : MarketHistoryT).

(** [if proposed_trades:] *)
Definition truthy (proposed_trades : option (list ProposedTrade)) : bool :=
  match proposed_trades with
  | None | Some [] => false
  | Some (_ :: _) => true
  end.

Definition step (time : datetime) : M Q :=
  market_state <- Adapter.get_market_state time ;;
  proposed_trades <- Strategy.propose_trades market_state history ;;
  (if truthy proposed_trades then
     let assumed_legal_trades :=
       MarketAdapter.filter_legal (default [] proposed_trades) market_state in
     Adapter.execute assumed_legal_trades market_state
   else ret tt) ;;
  (* [market_state.estimate_total_value_usd()]: no argument is passed *)
  usd_value <- call1 (MarketState.estimate_total_value_usd market_state) [] ;;
  ret usd_value.
End Fund.

End Fund.

(** ** Notions used in the statements *)

Import ProposedTrade.

(** The price a trade is sized at: the reciprocal of the market price when
    the trade buys the market's base currency. *)
Definition direction_price (trade : ProposedTrade) (base_price : Q) : Q :=
  if bool_decide (buy_coin trade = market_base_currency trade)
  then (1 / base_price)%Q else base_price.

Definition priced (trade : ProposedTrade) (base_price : Q) : ProposedTrade :=
  with_price (with_market_price trade (Some base_price))
             (Some (direction_price trade base_price)).

(** [if trade.sell_amount < 0: trade.sell_amount = 0] *)
Definition clamped (s : Q) : Q := if Qltb s 0 then 0%Q else s.

(** The trade once priced at [bp] and given the sell amount [s]. *)
Definition sized (trade : ProposedTrade) (bp s : Q) : ProposedTrade :=
  with_buy_amount (with_sell_amount (priced trade bp) (Some s))
    (Some ((s - s * fee trade) / direction_price trade bp)%Q).

(** The computation leaves every dictionary as it found it. *)
Definition keeps_heap {A} (m : M A) : Prop :=
  forall w, heap (snd (m w)) = heap w.

(** The computation writes to the dictionary at [l] at most, and only adds
    keys to it or overwrites their values. *)
Definition touches_only (l : loc) {A} (m : M A) : Prop :=
  forall w,
    (forall l', l' <> l -> heap (snd (m w)) !! l' = heap w !! l') /\
    (forall m0, heap w !! l = Some m0 ->
       exists m1, heap (snd (m w)) !! l = Some m1 /\ dom m0 ⊆ dom m1).

(** The [for] loop of [simulate_trades]. *)
Abbreviation simulate_loop self :=
  (for_each (fun new_balances proposed =>
               MarketState.simulate self proposed new_balances)).

(** ** Sample data *)

Definition weighted_average (p : Q) : gmap string Q :=
  {[ "weighted_average" := p ]}.

(** One holding of 1 BTC and no USD, at reference 1; nothing logged. *)
Definition sample_world : world :=
  World {[ 1%positive := <["BTC" := 1%Q]> {[ "USD" := 0%Q ]} ]} [].

(** Both directions of the BTC/ETH pair are quoted, at prices that are not
    reciprocal. *)
Definition two_way_state : MarketState :=
  MarketState.mk
    (<["BTC_ETH" := weighted_average 2]> {[ "ETH_BTC" := weighted_average 4 ]})
    1%positive 0%Z "BTC".

(** A market whose base and quote are the same coin. *)
Definition self_market_state : MarketState :=
  MarketState.mk {[ "BTC_BTC" := weighted_average 2 ]} 1%positive 0%Z "BTC".

(** Only BTC/ETH is quoted. *)
Definition eth_state : MarketState :=
  MarketState.mk {[ "BTC_ETH" := weighted_average 2 ]} 1%positive 0%Z "BTC".

(** The chart of the valuation scenario: one BTC is worth 10000 USD. *)
Definition usd_state : MarketState :=
  MarketState.mk {[ "USD_BTC" := weighted_average 10000 ]} 1%positive 0%Z "BTC".

(** The same chart with the price at zero. *)
Definition zero_usd_state : MarketState :=
  MarketState.mk {[ "USD_BTC" := weighted_average 0 ]} 1%positive 0%Z "BTC".

(** A chart whose BTC/ETH price is negative. *)
Definition negative_price_state : MarketState :=
  MarketState.mk {[ "BTC_ETH" := weighted_average (-2) ]} 1%positive 0%Z "BTC".

(** Holdings of 1 BTC and 10 ETH, at reference 1. *)
Definition eth_world : world :=
  World {[ 1%positive := <["BTC" := 1%Q]> {[ "ETH" := 10%Q ]} ]} [].

(** A trade as a strategy hands it over: nothing sized yet. *)
Definition unsized (sell buy fiat_coin market base : string)
    (fiat_value fee_rate : Q) : ProposedTrade :=
  ProposedTrade.mk sell buy sell buy fiat_coin market base fiat_value fee_rate
    0 0 None None None None.

(** Spend 100 BTC (the fiat) on ETH at 0.25% fee. *)
Definition sell_fiat_trade : ProposedTrade :=
  unsized "BTC" "ETH" "BTC" "BTC_ETH" "BTC" 100 (25 # 10000).

(** The same shape with a negative target value. *)
Definition negative_target_trade : ProposedTrade :=
  unsized "BTC" "ETH" "BTC" "BTC_ETH" "BTC" (-1) (25 # 10000).

(** Sell ETH for BTC (the fiat) toward a target of 100. *)
Definition buy_fiat_trade : ProposedTrade :=
  unsized "ETH" "BTC" "BTC" "BTC_ETH" "BTC" 100 (25 # 10000).

(** Neither leg is the fiat. *)
Definition cross_trade : ProposedTrade :=
  unsized "ETH" "XMR" "BTC" "BTC_ETH" "BTC" 100 (25 # 10000).

(** Offers 10 BTC while 1 BTC is held; already priced. *)
Definition oversized_trade : ProposedTrade :=
  ProposedTrade.mk "BTC" "ETH" "BTC" "ETH" "BTC" "BTC_ETH" "BTC"
    100 (25 # 10000) 10 5 (Some 2%Q) (Some 2%Q) None None.

(** Offers 0.00005 BTC, the fiat: below the smallest transaction. *)
Definition dust_trade : ProposedTrade :=
  ProposedTrade.mk "BTC" "ETH" "BTC" "ETH" "BTC" "BTC_ETH" "BTC"
    100 (25 # 10000) (5 # 100000) 1 (Some 2%Q) (Some 2%Q) None None.

(** Offers half a BTC for ETH: nothing to object to. *)
Definition modest_trade : ProposedTrade :=
  ProposedTrade.mk "BTC" "ETH" "BTC" "ETH" "BTC" "BTC_ETH" "BTC"
    100 (25 # 10000) (1 # 2) 1 (Some 2%Q) (Some 2%Q) None None.

(** Offers a coin that is not among the balances. *)
Definition unheld_trade : ProposedTrade :=
  ProposedTrade.mk "XMR" "BTC" "XMR" "BTC" "BTC" "BTC_XMR" "BTC"
    100 (25 # 10000) 1 1 (Some 2%Q) (Some 2%Q) None None.

(** A strategy that proposes nothing. *)
Definition idle_strategy : Strategy.ops unit :=
  {| Strategy.trade_interval := 300;
     Strategy.propose_trades := fun _ _ => ret None |}.

(** An adapter that always answers with the BTC/ETH snapshot and inherits
    the rest. *)
Definition snapshot_adapter : Adapter.ops :=
  {| Adapter.get_market_state := fun _ => ret eth_state;
     Adapter.get_balances := MarketAdapter.get_balances;
     Adapter.execute := MarketAdapter.execute;
     Adapter.is_legal := MarketAdapter.is_legal |}.

(** * Properties *)

(** ** The monad *)

Lemma bind_ok {A B} (m : M A) (k : A -> M B) w a w' :
  m w = (Ok a, w') -> bind m k w = k a w'.
Proof. intros H. unfold bind. now rewrite H. Qed.

Lemma bind_raise {A B} (m : M A) (k : A -> M B) w e w' :
  m w = (Raise e, w') -> bind m k w = (Raise e, w').
Proof. intros H. unfold bind. now rewrite H. Qed.

Lemma bind_ok_inv {A B} (m : M A) (k : A -> M B) w b w' :
  bind m k w = (Ok b, w') ->
  exists a w1, m w = (Ok a, w1) /\ k a w1 = (Ok b, w').
Proof.
  unfold bind. destruct (m w) as [[a|e] w1]; intros H.
  - now exists a, w1.
  - discriminate.
Qed.

Lemma for_each_app {A B} (body : B -> A -> M B) (xs ys : list A) (acc : B) w :
  for_each body (xs ++ ys) acc w =
  bind (for_each body xs acc) (for_each body ys) w.
Proof.
  revert acc w. induction xs as [|x xs IH]; intros acc w; simpl.
  - reflexivity.
  - unfold bind in *. destruct (body acc x w) as [[acc'|e] w1].
    + apply IH.
    + reflexivity.
Qed.

(** ** Chart lookups *)

Lemma in_chart_true self market :
  MarketState.in_chart self market = true <->
  is_Some (MarketState.chart_data self !! market).
Proof. unfold MarketState.in_chart. apply bool_decide_eq_true. Qed.

Lemma in_chart_false self market :
  MarketState.in_chart self market = false <->
  MarketState.chart_data self !! market = None.
Proof.
  unfold MarketState.in_chart. rewrite bool_decide_eq_false.
  rewrite eq_None_not_Some. reflexivity.
Qed.

Lemma price_ok_inv self market key w p w' :
  MarketState.price self market key w = (Ok p, w') ->
  w' = w /\
  exists stats, MarketState.chart_data self !! market = Some stats /\
                stats !! key = Some p.
Proof.
  unfold MarketState.price, bind, getitem, ret, raise.
  destruct (MarketState.chart_data self !! market) as [stats|]; [|discriminate].
  destruct (stats !! key) as [q|] eqn:Hq; [|discriminate].
  intros [= <- <-]. split; [reflexivity|]. now exists stats.
Qed.

Lemma price_ok self market key stats p w :
  MarketState.chart_data self !! market = Some stats ->
  stats !! key = Some p ->
  MarketState.price self market key w = (Ok p, w).
Proof.
  intros Hm Hk. unfold MarketState.price, bind, getitem, ret.
  now rewrite Hm, Hk.
Qed.

(** ** estimate_value *)

(** C6. Valuing a coin in terms of itself returns the amount unchanged,
    whatever markets the chart data holds, and leaves the world as it
    was. *)
Theorem estimate_value_identity (self : MarketState) (C : string) (amount : Q) (w : world) :
  MarketState.estimate_value self C amount C w = (Ok (Some amount), w).
Proof.
  unfold MarketState.estimate_value.
  now rewrite bool_decide_eq_true_2.
Qed.

Lemma estimate_value_fst_indep self coin amount reference_coin w w' :
  fst (MarketState.estimate_value self coin amount reference_coin w) =
  fst (MarketState.estimate_value self coin amount reference_coin w').
Proof.
  unfold MarketState.estimate_value.
  destruct (bool_decide (coin = reference_coin)); [reflexivity|].
  destruct (MarketState.in_chart self (MarketState.market_of reference_coin coin)).
  - unfold bind, getitem, ret, raise.
    destruct (MarketState.chart_data self !! _) as [stats|]; [|reflexivity].
    destruct (stats !! _); reflexivity.
  - destruct (MarketState.in_chart self (MarketState.market_of coin reference_coin)).
    + unfold bind, getitem, div, ret, raise.
      destruct (MarketState.chart_data self !! _) as [stats|]; [|reflexivity].
      destruct (stats !! _); [|reflexivity].
      destruct (Qeq_bool _ _); reflexivity.
    + reflexivity.
Qed.

(** C5 (as amended). For two distinct coins A and B whose market [A_B]
    has price [p]: [estimate_value(B, x, A)] is [x * p]; and when the
    opposite market [B_A] is not in the chart data,
    [estimate_value(A, x, B)] is [x / p], raising [ZeroDivisionError]
    when [p] is zero as the division itself does. *)
Theorem estimate_value_direct_and_inverted
    (self : MarketState) (A B : string) (x p : Q) (w : world) :
  A <> B ->
  MarketState.price self (MarketState.market_of A B) "weighted_average" w = (Ok p, w) ->
  MarketState.estimate_value self B x A w = (Ok (Some (x * p)%Q), w) /\
  (MarketState.in_chart self (MarketState.market_of B A) = false ->
   MarketState.estimate_value self A x B w =
     (v <- div x p ;; ret (Some v)) w).
Proof.
  intros Hne Hp. apply price_ok_inv in Hp as [_ (stats & Hm & Hk)].
  assert (Hin : MarketState.in_chart self (MarketState.market_of A B) = true)
    by (apply in_chart_true; eauto).
  split.
  - unfold MarketState.estimate_value.
    rewrite bool_decide_eq_false_2 by congruence.
    rewrite Hin. unfold bind, getitem, ret. now rewrite Hm, Hk.
  - intros Hno. unfold MarketState.estimate_value.
    rewrite bool_decide_eq_false_2 by congruence.
    rewrite Hno, Hin. unfold bind, getitem, ret. now rewrite Hm, Hk.
Qed.

Lemma estimate_value_direct_and_inverted_witness :
  MarketState.estimate_value eth_state "ETH" 3 "BTC" sample_world
    = (Ok (Some (3 * 2)%Q), sample_world) /\
  MarketState.estimate_value eth_state "BTC" 3 "ETH" sample_world
    = (Ok (Some (3 / 2)%Q), sample_world).
Proof.
  destruct (estimate_value_direct_and_inverted eth_state "BTC" "ETH" 3 2
              sample_world) as [Hd Hi].
  - discriminate.
  - reflexivity.
  - split; [exact Hd|]. rewrite Hi; reflexivity.
Defined.

(** C5 fails as stated.  With both [BTC_ETH] (price 2) and [ETH_BTC]
    (price 4) quoted, [estimate_value("BTC", 1, "ETH")] takes the direct
    market [ETH_BTC] and returns 4, not [1 / price("BTC_ETH")]; and on a
    market [BTC_BTC] the identity branch returns the amount itself, not
    the amount times the price. *)
Lemma estimate_value_inverse_counterexample :
  (MarketState.in_chart two_way_state (MarketState.market_of "BTC" "ETH") = true /\
   MarketState.price two_way_state (MarketState.market_of "BTC" "ETH")
       "weighted_average" sample_world = (Ok 2%Q, sample_world) /\
   MarketState.estimate_value two_way_state "BTC" 1 "ETH" sample_world
     = (Ok (Some 4%Q), sample_world) /\
   ~ (4 == 1 / 2)%Q) /\
  (MarketState.in_chart self_market_state (MarketState.market_of "BTC" "BTC") = true /\
   MarketState.price self_market_state (MarketState.market_of "BTC" "BTC")
       "weighted_average" sample_world = (Ok 2%Q, sample_world) /\
   MarketState.estimate_value self_market_state "BTC" 1 "BTC" sample_world
     = (Ok (Some 1%Q), sample_world) /\
   ~ (1 == 1 * 2)%Q).
Proof.
  repeat split; try reflexivity; intros H; discriminate H.
Qed.

(** ** estimate_values *)

Lemma estimate_values_loop_lookup self reference_coin items :
  NoDup (items.*1) ->
  forall acc w values w',
    for_each (MarketState.estimate_values_body self reference_coin) items acc w
      = (Ok values, w') ->
    forall coin,
      (forall amount, (coin, amount) ∈ items ->
         exists v, fst (MarketState.estimate_value self coin amount reference_coin w)
                     = Ok v /\
                   values !! coin = Some (MarketState.value_or_zero v)) /\
      (coin ∉ items.*1 -> values !! coin = acc !! coin).
Proof.
  induction items as [|[c a] rest IH]; intros Hnd acc w values w' Hrun coin.
  - simpl in Hrun. unfold ret in Hrun. injection Hrun as <- <-.
    split; [intros amount Hin; inversion Hin | reflexivity].
  - simpl in Hnd. apply NoDup_cons in Hnd as [Hc Hnd].
    simpl in Hrun. apply bind_ok_inv in Hrun as (acc' & w1 & Hbody & Hrest).
    unfold MarketState.estimate_values_body in Hbody.
    apply bind_ok_inv in Hbody as (v & w2 & Hv & Hret).
    unfold ret in Hret. injection Hret as <- <-.
    destruct (IH Hnd _ _ _ _ Hrest coin) as [IHin IHout].
    split.
    + intros amount Hin. apply elem_of_cons in Hin as [Heq | Hin].
      * injection Heq as -> ->. exists v. split.
        -- now rewrite Hv.
        -- rewrite (proj2 (IH Hnd _ _ _ _ Hrest c) Hc).
           apply lookup_insert_eq.
      * destruct (IHin amount Hin) as (v' & Hv' & Hl). exists v'.
        split; [|exact Hl].
        rewrite <- Hv'. apply estimate_value_fst_indep.
    + intros Hout. simpl in Hout. apply not_elem_of_cons in Hout as [Hne Hout].
      rewrite (IHout Hout). now apply lookup_insert_ne.
Qed.

Lemma estimate_values_loop_total self reference_coin items :
  forall acc w,
    (forall coin amount, (coin, amount) ∈ items ->
       exists v, fst (MarketState.estimate_value self coin amount reference_coin w)
                   = Ok v) ->
    exists values w',
      for_each (MarketState.estimate_values_body self reference_coin) items acc w
        = (Ok values, w').
Proof.
  induction items as [|[c a] rest IH]; intros acc w Hall; simpl.
  - now exists acc, w.
  - destruct (Hall c a) as (v & Hv); [left|].
    destruct (MarketState.estimate_value self c a reference_coin w)
      as [r w1] eqn:Hrun.
    simpl in Hv. subst r.
    unfold bind at 1. unfold MarketState.estimate_values_body at 1.
    unfold bind at 1. rewrite Hrun. unfold ret at 1.
    apply IH. intros coin amount Hin.
    destruct (Hall coin amount) as (v' & Hv'); [now right|].
    exists v'. rewrite <- Hv'. apply estimate_value_fst_indep.
Qed.

(** C7. When the coin differs from the reference coin and neither the
    direct market [reference_coin] nor the inverted market [coin_reference]
    is in the chart data, [estimate_value] logs one warning and returns
    [None] without raising; and [estimate_values] over any balances that
    hold this coin maps it to zero in the dictionary it returns, which it
    does return as long as no other holding fails to be valued. *)
Theorem estimate_value_unknown_market
    (self : MarketState) (coin : string) (amount : Q) (reference_coin : string)
    (w : world) :
  coin <> reference_coin ->
  MarketState.in_chart self (MarketState.market_of reference_coin coin) = false ->
  MarketState.in_chart self (MarketState.market_of coin reference_coin) = false ->
  MarketState.estimate_value self coin amount reference_coin w =
    (Ok None,
     World (heap w)
       (log w ++ [LoggerWarning
                    ("Couldn't find a market for " +:+ reference_coin +:+ ":"
                       +:+ coin +:+ "; has it been delisted?") []])) /\
  forall (held : loc) (items : gmap string Q),
    heap w !! held = Some items ->
    items !! coin = Some amount ->
    (forall values w',
       MarketState.estimate_values self held reference_coin w = (Ok values, w') ->
       values !! coin = Some 0%Q) /\
    ((forall c a, items !! c = Some a ->
        exists v, fst (MarketState.estimate_value self c a reference_coin w) = Ok v) ->
     exists values w',
       MarketState.estimate_values self held reference_coin w = (Ok values, w')).
Proof.
  intros Hne Hdirect Hinverted.
  assert (Hnone : MarketState.estimate_value self coin amount reference_coin w =
    (Ok None,
     World (heap w)
       (log w ++ [LoggerWarning
                    ("Couldn't find a market for " +:+ reference_coin +:+ ":"
                       +:+ coin +:+ "; has it been delisted?") []]))).
  { unfold MarketState.estimate_value.
    rewrite bool_decide_eq_false_2 by exact Hne.
    rewrite Hdirect, Hinverted. reflexivity. }
  split; [exact Hnone|].
  intros held items Hheld Hcoin.
  unfold MarketState.estimate_values, bind, deref. rewrite Hheld.
  split.
  - intros values w' Hrun.
    pose proof (NoDup_fst_map_to_list items) as Hnd.
    destruct (estimate_values_loop_lookup self reference_coin _ Hnd _ _ _ _ Hrun coin)
      as [Hin _].
    destruct (Hin amount) as (v & Hv & Hl).
    { now apply elem_of_map_to_list. }
    rewrite Hnone in Hv. simpl in Hv. injection Hv as <-. exact Hl.
  - intros Hall. apply estimate_values_loop_total.
    intros c a Hin. apply Hall. now apply elem_of_map_to_list.
Qed.

Lemma estimate_value_unknown_market_witness :
  fst (MarketState.estimate_value eth_state "USD" 0 "BTC" sample_world) = Ok None /\
  exists values w',
    MarketState.estimate_values eth_state 1%positive "BTC" sample_world
      = (Ok values, w') /\
    values !! "USD" = Some 0%Q.
Proof.
  destruct (estimate_value_unknown_market eth_state "USD" 0 "BTC" sample_world)
    as [Hv Hvs]; [discriminate | reflexivity | reflexivity |].
  split; [now rewrite Hv|].
  destruct (Hvs 1%positive (<["BTC" := 1%Q]> {[ "USD" := 0%Q ]}))
    as [Hzero Htotal]; [reflexivity | reflexivity |].
  destruct Htotal as (values & w' & Hrun).
  - intros c a Hc.
    destruct (decide (c = "BTC")) as [->|Hn1].
    + exists (Some a). reflexivity.
    + rewrite lookup_insert_ne in Hc by congruence.
      apply lookup_singleton_Some in Hc as [<- <-].
      rewrite Hv. now exists None.
  - exists values, w'. split; [exact Hrun|]. now apply (Hzero values w').
Defined.

(** The valuation scenario of the specification: 1 BTC and no USD, with
    BTC quoted at 10000 USD, are worth 10000.00 USD. *)
Example estimate_total_value_usd_scenario :
  exists usd w',
    MarketState.estimate_total_value_usd usd_state 1%positive sample_world
      = (Ok usd, w') /\ (usd == 10000)%Q /\ log w' = [].
Proof.
  eexists _, _. split; [vm_compute; reflexivity|]. split; reflexivity.
Qed.

(** ** Arithmetic on amounts *)

Lemma Qltb_lt x y : Qltb x y = true <-> (x < y)%Q.
Proof.
  unfold Qltb. rewrite negb_true_iff. split.
  - intros H. apply Qnot_le_lt. intros Hle.
    apply Qle_bool_iff in Hle. congruence.
  - intros H. destruct (Qle_bool y x) eqn:E; [|reflexivity].
    apply Qle_bool_iff in E. exfalso. exact (Qlt_not_le _ _ H E).
Qed.

Lemma Qltb_ge x y : Qltb x y = false <-> (y <= x)%Q.
Proof.
  unfold Qltb. rewrite negb_false_iff. apply Qle_bool_iff.
Qed.

Lemma div_ok x y w : ~ (y == 0)%Q -> div x y w = (Ok (x / y)%Q, w).
Proof.
  intros H. unfold div. destruct (Qeq_bool y 0) eqn:E; [|reflexivity].
  apply Qeq_bool_iff in E. contradiction.
Qed.

Lemma div_zero x y w : (y == 0)%Q -> div x y w = (Raise ZeroDivisionError, w).
Proof.
  intros H. unfold div. apply Qeq_bool_iff in H. now rewrite H.
Qed.

Lemma div_inv x y w r w' :
  div x y w = (r, w') ->
  w' = w /\
  ((~ (y == 0)%Q /\ r = Ok (x / y)%Q) \/ ((y == 0)%Q /\ r = Raise ZeroDivisionError)).
Proof.
  unfold div. destruct (Qeq_bool y 0) eqn:E; intros [= <- <-]; split; try reflexivity.
  - right. split; [now apply Qeq_bool_iff|reflexivity].
  - left. split; [|reflexivity]. intros H. apply Qeq_bool_iff in H. congruence.
Qed.

Lemma reciprocal_nonzero (q : Q) : ~ (q == 0)%Q -> ~ (1 / q == 0)%Q.
Proof.
  intros Hq H. apply Hq.
  assert (Hone : (q * (1 / q) == 1)%Q) by (field; exact Hq).
  rewrite H in Hone. rewrite Qmult_0_r in Hone. discriminate Hone.
Qed.

(** ** estimate_price and set_sell_amount *)

Lemma direction_price_nonzero trade bp :
  ~ (bp == 0)%Q -> ~ (direction_price trade bp == 0)%Q.
Proof.
  intros H. unfold direction_price. case_bool_decide; [|exact H].
  now apply reciprocal_nonzero.
Qed.

Lemma estimate_price_ok self trade bp w :
  MarketState.price self (market_name trade) "weighted_average" w = (Ok bp, w) ->
  (buy_coin trade = market_base_currency trade -> ~ (bp == 0)%Q) ->
  MarketState.estimate_price self trade w = (Ok (priced trade bp), w).
Proof.
  intros Hp Hnz. unfold MarketState.estimate_price.
  rewrite (bind_ok _ _ _ _ _ Hp). simpl.
  unfold priced, direction_price. simpl. case_bool_decide as Hb.
  - rewrite (bind_ok _ _ _ _ _ (div_ok 1 bp w (Hnz Hb))). reflexivity.
  - reflexivity.
Qed.

Lemma estimate_price_inv self trade w t1 w1 :
  MarketState.estimate_price self trade w = (Ok t1, w1) ->
  w1 = w /\
  exists bp,
    MarketState.price self (market_name trade) "weighted_average" w = (Ok bp, w) /\
    (buy_coin trade = market_base_currency trade -> ~ (bp == 0)%Q) /\
    t1 = priced trade bp.
Proof.
  unfold MarketState.estimate_price. intros H.
  apply bind_ok_inv in H as (bp & w0 & Hp & H).
  destruct (price_ok_inv _ _ _ _ _ _ Hp) as [-> _].
  simpl in H. unfold priced, direction_price. simpl.
  case_bool_decide as Hb.
  - apply bind_ok_inv in H as (p & w2 & Hd & H).
    apply div_inv in Hd as [-> [[Hnz [= ->]] | [_ ?]]]; [|discriminate].
    unfold ret in H. injection H as <- <-.
    split; [reflexivity|]. exists bp. repeat split; auto.
  - unfold ret in H. injection H as <- <-.
    split; [reflexivity|]. exists bp. repeat split; auto.
Qed.

Lemma dict_get_ok d key w m v :
  heap w !! d = Some m -> m !! key = Some v -> dict_get d key w = (Ok v, w).
Proof.
  intros Hd Hk. unfold dict_get, bind, deref, ret. now rewrite Hd, Hk.
Qed.

Lemma dict_get_missing d key w m :
  heap w !! d = Some m -> m !! key = None ->
  dict_get d key w = (Raise (KeyError key), w).
Proof.
  intros Hd Hk. unfold dict_get, bind, deref, raise. now rewrite Hd, Hk.
Qed.

Lemma dict_get_ok_inv d key w v w' :
  dict_get d key w = (Ok v, w') ->
  w' = w /\ exists m, heap w !! d = Some m /\ m !! key = Some v.
Proof.
  unfold dict_get, bind, deref, ret, raise.
  destruct (heap w !! d) as [m|] eqn:Hd; [|discriminate].
  destruct (m !! key) as [q|] eqn:Hk; [|discriminate].
  intros [= <- <-]. split; [reflexivity|]. now exists m.
Qed.

Lemma clamped_nonneg s : (0 <= clamped s)%Q.
Proof.
  unfold clamped. destruct (Qltb s 0) eqn:E.
  - apply Qle_refl.
  - now apply Qltb_ge.
Qed.

Lemma size_sell_leg_sell_fiat self t1 w :
  sell_coin t1 = fiat t1 ->
  MarketState.size_sell_leg self t1 w
    = (Ok (with_sell_amount t1 (Some (fiat_value_to_trade t1))), w).
Proof.
  intros H. unfold MarketState.size_sell_leg.
  now rewrite bool_decide_eq_true_2.
Qed.

Lemma size_sell_leg_buy_fiat self t1 p held w :
  sell_coin t1 <> fiat t1 -> buy_coin t1 = fiat t1 ->
  price t1 = Some p -> ~ (p == 0)%Q ->
  MarketState.balance self (sell_coin t1) w = (Ok held, w) ->
  MarketState.size_sell_leg self t1 w
    = (Ok (with_sell_amount t1
             (Some (clamped ((held * p - fiat_value_to_trade t1) / p)%Q))), w).
Proof.
  intros Hs Hb Hp Hnz Hheld. unfold MarketState.size_sell_leg.
  rewrite bool_decide_eq_false_2 by exact Hs.
  rewrite bool_decide_eq_true_2 by exact Hb.
  rewrite (bind_ok _ _ _ _ _ Hheld). rewrite Hp. simpl.
  unfold bind at 1. unfold ret at 1.
  unfold bind at 1. unfold ret at 1.
  rewrite (bind_ok _ _ _ _ _ (div_ok _ p w Hnz)).
  unfold clamped. destruct (Qltb _ 0); reflexivity.
Qed.

Lemma size_sell_leg_neither self t1 w :
  sell_coin t1 <> fiat t1 -> buy_coin t1 <> fiat t1 ->
  MarketState.size_sell_leg self t1 w
    = (Raise (RuntimeError "No active exception to reraise"),
       World (heap w)
         (log w ++ [LoggerWarning "Proposing trade neither to nor from fiat" [t1]])).
Proof.
  intros Hs Hb. unfold MarketState.size_sell_leg.
  rewrite bool_decide_eq_false_2 by exact Hs.
  rewrite bool_decide_eq_false_2 by exact Hb.
  reflexivity.
Qed.

Lemma size_sell_leg_inv self t1 w t2 w2 :
  MarketState.size_sell_leg self t1 w = (Ok t2, w2) ->
  w2 = w /\
  exists s, t2 = with_sell_amount t1 (Some s) /\
    ((sell_coin t1 = fiat t1 /\ s = fiat_value_to_trade t1) \/
     (sell_coin t1 <> fiat t1 /\ buy_coin t1 = fiat t1 /\
      exists held p,
        MarketState.balance self (sell_coin t1) w = (Ok held, w) /\
        price t1 = Some p /\ ~ (p == 0)%Q /\
        s = clamped ((held * p - fiat_value_to_trade t1) / p)%Q)).
Proof.
  intros H.
  destruct (decide (sell_coin t1 = fiat t1)) as [Hs|Hs].
  - rewrite size_sell_leg_sell_fiat in H by exact Hs. injection H as <- <-.
    split; [reflexivity|]. eexists. split; [reflexivity|]. left. now split.
  - destruct (decide (buy_coin t1 = fiat t1)) as [Hb|Hb].
    + unfold MarketState.size_sell_leg in H.
      rewrite bool_decide_eq_false_2 in H by exact Hs.
      rewrite bool_decide_eq_true_2 in H by exact Hb.
      apply bind_ok_inv in H as (held & w0 & Hheld & H).
      destruct (dict_get_ok_inv _ _ _ _ _ Hheld) as [-> _].
      destruct (price t1) as [p|] eqn:Hp; [|discriminate H].
      simpl in H. unfold bind at 1 in H. unfold ret at 1 in H.
      unfold bind at 1 in H. unfold ret at 1 in H.
      apply bind_ok_inv in H as (s & w1 & Hd & H).
      apply div_inv in Hd as [-> [[Hnz [= ->]] | [_ ?]]]; [|discriminate].
      assert (Hw : w2 = w /\ t2 = with_sell_amount t1
                (Some (clamped ((held * p - fiat_value_to_trade t1) / p)%Q))).
      { unfold clamped. destruct (Qltb _ 0); unfold ret in H;
          injection H as <- <-; split; reflexivity. }
      destruct Hw as [-> ->]. split; [reflexivity|].
      eexists. split; [reflexivity|]. right. repeat split; auto.
      exists held, p. repeat split; auto.
    + rewrite size_sell_leg_neither in H by assumption. discriminate H.
Qed.

Lemma set_sell_amount_ok self trade bp s w :
  MarketState.price self (market_name trade) "weighted_average" w = (Ok bp, w) ->
  ~ (bp == 0)%Q ->
  MarketState.size_sell_leg self (priced trade bp) w
    = (Ok (with_sell_amount (priced trade bp) (Some s)), w) ->
  MarketState.set_sell_amount self trade w = (Ok (sized trade bp s), w).
Proof.
  intros Hp Hnz Hleg. unfold MarketState.set_sell_amount.
  rewrite (bind_ok _ _ _ _ _ (estimate_price_ok _ _ _ _ Hp (fun _ => Hnz))).
  rewrite (bind_ok _ _ _ _ _ Hleg). simpl.
  unfold bind at 1. unfold ret at 1.
  unfold bind at 1. unfold ret at 1.
  unfold bind at 1. unfold ret at 1.
  rewrite (bind_ok _ _ _ _ _
             (div_ok _ _ w (direction_price_nonzero trade bp Hnz))).
  reflexivity.
Qed.

Lemma set_sell_amount_inv self trade w trade' w' :
  MarketState.set_sell_amount self trade w = (Ok trade', w') ->
  w' = w /\
  exists bp s,
    MarketState.price self (market_name trade) "weighted_average" w = (Ok bp, w) /\
    ~ (direction_price trade bp == 0)%Q /\
    MarketState.size_sell_leg self (priced trade bp) w
      = (Ok (with_sell_amount (priced trade bp) (Some s)), w) /\
    trade' = sized trade bp s.
Proof.
  unfold MarketState.set_sell_amount. intros H.
  apply bind_ok_inv in H as (t1 & w1 & Hprice & H).
  apply estimate_price_inv in Hprice as [-> (bp & Hp & Hbase & ->)].
  apply bind_ok_inv in H as (t2 & w2 & Hleg & H).
  destruct (size_sell_leg_inv _ _ _ _ _ Hleg) as [-> (s & -> & _)].
  simpl in H.
  unfold bind at 1 in H. unfold ret at 1 in H.
  unfold bind at 1 in H. unfold ret at 1 in H.
  unfold bind at 1 in H. unfold ret at 1 in H.
  apply bind_ok_inv in H as (b & w3 & Hd & H).
  apply div_inv in Hd as [-> [[Hnz [= ->]] | [_ ?]]]; [|discriminate].
  unfold ret in H. injection H as <- <-.
  split; [reflexivity|]. exists bp, s. repeat split; auto.
Qed.

(** C3. For a trade whose sell coin is its fiat, on a market with a
    non-zero price, [set_sell_amount] returns the trade with
    [sell_amount = fiat_value_to_trade] and
    [buy_amount = sell_amount * (1 - fee) / price], [price] being the
    direction-adjusted price; in particular a fiat value of 100, a fee of
    0.0025 and a price of 2 give a buy amount of 49.875. *)
Theorem set_sell_amount_sell_fiat
    (self : MarketState) (trade : ProposedTrade) (bp : Q) (w : world) :
  sell_coin trade = fiat trade ->
  MarketState.price self (market_name trade) "weighted_average" w = (Ok bp, w) ->
  ~ (bp == 0)%Q ->
  exists trade' p b,
    MarketState.set_sell_amount self trade w = (Ok trade', w) /\
    price trade' = Some p /\ p = direction_price trade bp /\
    sell_amount trade' = Some (fiat_value_to_trade trade) /\
    buy_amount trade' = Some b /\
    (b == fiat_value_to_trade trade * (1 - fee trade) / p)%Q /\
    ((fiat_value_to_trade trade == 100)%Q -> (fee trade == 25 # 10000)%Q ->
     (p == 2)%Q -> (b == 49875 # 1000)%Q).
Proof.
  intros Hsell Hp Hnz.
  pose proof (direction_price_nonzero trade bp Hnz) as Hdir.
  assert (Hformula :
    ((fiat_value_to_trade trade - fiat_value_to_trade trade * fee trade)
       / direction_price trade bp
     == fiat_value_to_trade trade * (1 - fee trade) / direction_price trade bp)%Q)
    by (field; exact Hdir).
  exists (sized trade bp (fiat_value_to_trade trade)),
         (direction_price trade bp),
         ((fiat_value_to_trade trade - fiat_value_to_trade trade * fee trade)
            / direction_price trade bp)%Q.
  split; [|repeat split].
  - apply set_sell_amount_ok; [exact Hp | exact Hnz |].
    rewrite size_sell_leg_sell_fiat by exact Hsell. reflexivity.
  - exact Hformula.
  - intros Hv Hf Hprice. rewrite Hformula, Hv, Hf, Hprice. reflexivity.
Qed.

Lemma set_sell_amount_sell_fiat_witness :
  exists trade' b,
    MarketState.set_sell_amount eth_state sell_fiat_trade sample_world
      = (Ok trade', sample_world) /\
    sell_amount trade' = Some 100%Q /\
    buy_amount trade' = Some b /\ (b == 49875 # 1000)%Q.
Proof.
  destruct (set_sell_amount_sell_fiat eth_state sell_fiat_trade 2 sample_world)
    as (trade' & p & b & Hrun & Hp & Hdir & Hs & Hb & _ & Hnum).
  - reflexivity.
  - reflexivity.
  - discriminate.
  - exists trade', b. repeat split; try assumption.
    apply Hnum; [reflexivity | reflexivity |]. rewrite Hdir. reflexivity.
Defined.

(** C4 fails as stated.  A sell-fiat trade is accepted with whatever
    [fiat_value_to_trade] it carries, so a target of -1 leaves
    [sell_amount = -1].  And on a buy-fiat trade sized at a negative price
    the sell amount is not zero although [balance * price] is below the
    target: 10 ETH at price -1/2 against a target of 100 gives 210. *)
Lemma set_sell_amount_negative_counterexample :
  (sell_coin negative_target_trade = fiat negative_target_trade /\
   exists trade' s,
     MarketState.set_sell_amount eth_state negative_target_trade sample_world
       = (Ok trade', sample_world) /\
     sell_amount trade' = Some s /\ (s < 0)%Q) /\
  (sell_coin buy_fiat_trade <> fiat buy_fiat_trade /\
   buy_coin buy_fiat_trade = fiat buy_fiat_trade /\
   exists trade' s p held,
     MarketState.set_sell_amount negative_price_state buy_fiat_trade eth_world
       = (Ok trade', eth_world) /\
     sell_amount trade' = Some s /\ price trade' = Some p /\
     MarketState.balance negative_price_state (sell_coin buy_fiat_trade) eth_world
       = (Ok held, eth_world) /\
     (held * p < fiat_value_to_trade buy_fiat_trade)%Q /\ (s == 210)%Q).
Proof.
  split.
  - split; [reflexivity|].
    exists (sized negative_target_trade 2 (-1)), (-1)%Q.
    repeat split.
  - split; [discriminate|]. split; [reflexivity|].
    do 4 eexists.
    split; [vm_compute; reflexivity|].
    split; [reflexivity|]. split; [reflexivity|].
    split; [vm_compute; reflexivity|].
    split; reflexivity.
Qed.

(** C4 (as amended). Whenever [set_sell_amount] returns a trade, the
    trade carries a sell amount and a price.  On a sell-fiat trade the sell
    amount is [fiat_value_to_trade] as given.  Otherwise the trade buys
    fiat, its sell amount is not negative, and it is exactly zero whenever
    the price is positive and [balance(sell_coin) * price] is below
    [fiat_value_to_trade]. *)
Theorem set_sell_amount_sell_amount_sign
    (self : MarketState) (trade trade' : ProposedTrade) (w w' : world) :
  MarketState.set_sell_amount self trade w = (Ok trade', w') ->
  exists s p,
    sell_amount trade' = Some s /\ price trade' = Some p /\
    (sell_coin trade = fiat trade -> s = fiat_value_to_trade trade) /\
    (sell_coin trade <> fiat trade ->
     buy_coin trade = fiat trade /\ (0 <= s)%Q /\
     forall held,
       MarketState.balance self (sell_coin trade) w = (Ok held, w) ->
       (0 < p)%Q -> (held * p < fiat_value_to_trade trade)%Q -> s = 0%Q).
Proof.
  intros H. apply set_sell_amount_inv in H as [-> (bp & s & Hp & Hdir & Hleg & ->)].
  exists s, (direction_price trade bp). split; [reflexivity|]. split; [reflexivity|].
  apply size_sell_leg_inv in Hleg as [_ (s0 & Heq & Hcases)].
  assert (s0 = s) as -> by (injection Heq; congruence). clear Heq.
  simpl in Hcases.
  destruct Hcases as [[Hs ->] | (Hs & Hb & held & p & Hheld & Hprice & Hnz & ->)].
  - split; [reflexivity|]. intros Hne. contradiction.
  - split; [intros; contradiction|]. intros _.
    injection Hprice as <-.
    split; [exact Hb|]. split; [apply clamped_nonneg|].
    intros held' Hheld' Hpos Hlow.
    rewrite Hheld in Hheld'. injection Hheld' as <-.
    unfold clamped.
    assert (Hneg : ((held * direction_price trade bp - fiat_value_to_trade trade)
                      / direction_price trade bp < 0)%Q).
    { apply Qlt_shift_div_r; [exact Hpos|]. rewrite Qmult_0_l.
      apply (Qplus_lt_l _ _ (fiat_value_to_trade trade)).
      ring_simplify. exact Hlow. }
    apply Qltb_lt in Hneg. now rewrite Hneg.
Qed.

Lemma set_sell_amount_sell_amount_sign_witness :
  exists s p,
    sell_amount (sized buy_fiat_trade 2 0) = Some s /\
    price (sized buy_fiat_trade 2 0) = Some p /\
    (sell_coin buy_fiat_trade = fiat buy_fiat_trade ->
     s = fiat_value_to_trade buy_fiat_trade) /\
    (sell_coin buy_fiat_trade <> fiat buy_fiat_trade ->
     buy_coin buy_fiat_trade = fiat buy_fiat_trade /\ (0 <= s)%Q /\
     forall held,
       MarketState.balance eth_state (sell_coin buy_fiat_trade) eth_world
         = (Ok held, eth_world) ->
       (0 < p)%Q -> (held * p < fiat_value_to_trade buy_fiat_trade)%Q -> s = 0%Q).
Proof.
  apply (set_sell_amount_sell_amount_sign eth_state buy_fiat_trade
           (sized buy_fiat_trade 2 0) eth_world eth_world).
  vm_compute. reflexivity.
Defined.

Lemma estimate_price_pure self trade :
  exists r, forall w, MarketState.estimate_price self trade w = (r, w).
Proof.
  unfold MarketState.estimate_price, MarketState.price, bind, getitem, div,
    ret, raise.
  destruct (MarketState.chart_data self !! market_name trade) as [stats|];
    [|eexists; reflexivity].
  destruct (stats !! "weighted_average") as [bp|]; [|eexists; reflexivity].
  simpl. destruct (bool_decide _); [|eexists; reflexivity].
  destruct (Qeq_bool bp 0); eexists; reflexivity.
Qed.

(** C9 fails as stated.  A trade with no fiat leg on a market that is not
    in the chart data does raise, but it is the [KeyError] of the price
    lookup at the start of [estimate_price]; the branch that logs the
    warning is never reached and the log is as it was. *)
Lemma set_sell_amount_neither_leg_fiat_counterexample :
  sell_coin cross_trade <> fiat cross_trade /\
  buy_coin cross_trade <> fiat cross_trade /\
  MarketState.set_sell_amount usd_state cross_trade sample_world
    = (Raise (KeyError "BTC_ETH"), sample_world) /\
  log sample_world = [].
Proof.
  split; [discriminate|]. split; [discriminate|]. split; reflexivity.
Qed.

(** C9 (as amended). A trade neither of whose legs is its fiat is never
    sized: [set_sell_amount] raises, and the exception reaches the caller.
    When the price of the trade can be estimated it logs the warning and
    raises the error of a bare [raise]; when [estimate_price] itself
    raises, that exception is the one raised and nothing is logged. *)
Theorem set_sell_amount_neither_leg_fiat
    (self : MarketState) (trade : ProposedTrade) (w : world) :
  sell_coin trade <> fiat trade ->
  buy_coin trade <> fiat trade ->
  (exists e w', MarketState.set_sell_amount self trade w = (Raise e, w')) /\
  (forall bp,
     MarketState.price self (market_name trade) "weighted_average" w = (Ok bp, w) ->
     (buy_coin trade = market_base_currency trade -> ~ (bp == 0)%Q) ->
     MarketState.set_sell_amount self trade w =
       (Raise (RuntimeError "No active exception to reraise"),
        World (heap w)
          (log w ++ [LoggerWarning "Proposing trade neither to nor from fiat"
                       [priced trade bp]]))) /\
  (forall e w',
     MarketState.estimate_price self trade w = (Raise e, w') ->
     w' = w /\ MarketState.set_sell_amount self trade w = (Raise e, w)).
Proof.
  intros Hs Hb. split; [|split].
  - destruct (MarketState.set_sell_amount self trade w) as [[trade'|e] w'] eqn:Hrun.
    + exfalso.
      apply set_sell_amount_inv in Hrun as [_ (bp & s & _ & _ & Hleg & _)].
      rewrite size_sell_leg_neither in Hleg by (simpl; assumption).
      discriminate Hleg.
    + now exists e, w'.
  - intros bp Hp Hbase. unfold MarketState.set_sell_amount.
    rewrite (bind_ok _ _ _ _ _ (estimate_price_ok _ _ _ _ Hp Hbase)).
    apply bind_raise. apply size_sell_leg_neither; simpl; assumption.
  - intros e w' Hprice.
    destruct (estimate_price_pure self trade) as [r Hr].
    rewrite Hr in Hprice. injection Hprice as -> <-.
    split; [reflexivity|].
    unfold MarketState.set_sell_amount. apply bind_raise. apply Hr.
Qed.

Lemma set_sell_amount_neither_leg_fiat_witness :
  MarketState.set_sell_amount eth_state cross_trade sample_world =
    (Raise (RuntimeError "No active exception to reraise"),
     World (heap sample_world)
       [LoggerWarning "Proposing trade neither to nor from fiat"
          [priced cross_trade 2]]).
Proof.
  destruct (set_sell_amount_neither_leg_fiat eth_state cross_trade sample_world)
    as (_ & Hraise & _); [discriminate | discriminate |].
  apply (Hraise 2%Q); [reflexivity | discriminate].
Defined.

(** ** What a computation does to the store *)

Lemma keeps_heap_ret {A} (a : A) : keeps_heap (ret a).
Proof. intros w. reflexivity. Qed.

Lemma keeps_heap_raise {A} e : keeps_heap (@raise A e).
Proof. intros w. reflexivity. Qed.

Lemma keeps_heap_bind {A B} (m : M A) (k : A -> M B) :
  keeps_heap m -> (forall a, keeps_heap (k a)) -> keeps_heap (bind m k).
Proof.
  intros Hm Hk w. unfold bind. specialize (Hm w).
  destruct (m w) as [[a|e] w1]; simpl in *.
  - now rewrite Hk.
  - exact Hm.
Qed.

Lemma keeps_heap_emit e : keeps_heap (emit e).
Proof. intros w. reflexivity. Qed.

Lemma keeps_heap_deref d : keeps_heap (deref d).
Proof. intros w. unfold deref. now destruct (heap w !! d). Qed.

Lemma keeps_heap_div x y : keeps_heap (div x y).
Proof. intros w. unfold div. now destruct (Qeq_bool y 0). Qed.

Lemma keeps_heap_num attr : keeps_heap (num attr).
Proof. intros w. now destruct attr. Qed.

Lemma keeps_heap_getitem {V} (d : gmap string V) key : keeps_heap (getitem d key).
Proof. intros w. unfold getitem. now destruct (d !! key). Qed.

Create HintDb frame.
#[local] Hint Resolve keeps_heap_ret keeps_heap_raise keeps_heap_emit
  keeps_heap_deref keeps_heap_div keeps_heap_num keeps_heap_getitem : frame.

Ltac keeps_heap_step :=
  match goal with
  | |- keeps_heap (bind _ _) => apply keeps_heap_bind; [|intros]
  | |- keeps_heap (if ?b then _ else _) => destruct b
  | |- keeps_heap (match ?o with Some _ => _ | None => _ end) => destruct o
  | |- keeps_heap _ => solve [auto with frame]
  end.

Lemma keeps_heap_dict_get d key : keeps_heap (dict_get d key).
Proof. unfold dict_get. repeat keeps_heap_step. Qed.

Lemma keeps_heap_dict_mem d key : keeps_heap (dict_mem d key).
Proof. unfold dict_mem. repeat keeps_heap_step. Qed.

Lemma keeps_heap_price self market key :
  keeps_heap (MarketState.price self market key).
Proof. unfold MarketState.price. repeat keeps_heap_step. Qed.

#[local] Hint Resolve keeps_heap_dict_get keeps_heap_dict_mem keeps_heap_price
  : frame.

Lemma keeps_heap_estimate_price self trade :
  keeps_heap (MarketState.estimate_price self trade).
Proof. unfold MarketState.estimate_price. repeat keeps_heap_step. Qed.

Lemma keeps_heap_size_sell_leg self trade :
  keeps_heap (MarketState.size_sell_leg self trade).
Proof.
  unfold MarketState.size_sell_leg, MarketState.balance, logger_warning.
  repeat keeps_heap_step.
Qed.

#[local] Hint Resolve keeps_heap_estimate_price keeps_heap_size_sell_leg : frame.

Lemma keeps_heap_set_sell_amount self trade :
  keeps_heap (MarketState.set_sell_amount self trade).
Proof. unfold MarketState.set_sell_amount. repeat keeps_heap_step. Qed.

#[local] Hint Resolve keeps_heap_set_sell_amount : frame.

Lemma keeps_touches l {A} (m : M A) : keeps_heap m -> touches_only l m.
Proof.
  intros H w. rewrite (H w). split; [reflexivity|].
  intros m0 Hm0. now exists m0.
Qed.

Lemma touches_bind l {A B} (m : M A) (k : A -> M B) :
  touches_only l m -> (forall a, touches_only l (k a)) ->
  touches_only l (bind m k).
Proof.
  intros Hm Hk w. unfold bind. destruct (Hm w) as [Hother Hown].
  destruct (m w) as [[a|e] w1]; simpl in *.
  - destruct (Hk a w1) as [Hother' Hown']. split.
    + intros l' Hl'. now rewrite Hother', Hother.
    + intros m0 Hm0. destruct (Hown m0 Hm0) as (m1 & Hm1 & Hsub).
      destruct (Hown' m1 Hm1) as (m2 & Hm2 & Hsub').
      exists m2. split; [exact Hm2|]. set_solver.
  - now split.
Qed.

Lemma touches_dict_set l key v : touches_only l (dict_set l key v).
Proof.
  intros w. unfold dict_set, bind, deref.
  destruct (heap w !! l) as [m|] eqn:Hl; simpl.
  - split.
    + intros l' Hl'. now rewrite lookup_insert_ne.
    + intros m0 [= <-]. exists (<[key := v]> m).
      rewrite lookup_insert_eq. split; [reflexivity|].
      rewrite dom_insert. set_solver.
  - split; [reflexivity|]. intros m0 Hm0. discriminate.
Qed.

Ltac touches_step l :=
  match goal with
  | |- touches_only l (bind _ _) => apply touches_bind; [|intros]
  | |- touches_only l (if ?b then _ else _) => destruct b
  | |- touches_only l (dict_set l _ _) => apply touches_dict_set
  | |- touches_only l _ => solve [apply keeps_touches; auto with frame]
  end.

Lemma touches_simulate self l proposed :
  touches_only l (MarketState.simulate self proposed l).
Proof. unfold MarketState.simulate. repeat touches_step l. Qed.

Lemma simulate_returns self l proposed w l' w' :
  MarketState.simulate self proposed l w = (Ok l', w') -> l' = l.
Proof.
  unfold MarketState.simulate. intros H.
  repeat (apply bind_ok_inv in H as (? & ? & _ & H)).
  unfold ret in H. now injection H as <- _.
Qed.

Lemma simulate_loop_returns self trades : forall l w l' w',
  simulate_loop self trades l w = (Ok l', w') -> l' = l.
Proof.
  induction trades as [|t rest IH]; intros l w l' w' H; simpl in H.
  - unfold ret in H. now injection H as <- _.
  - apply bind_ok_inv in H as (l1 & w1 & Hone & Hrest).
    apply simulate_returns in Hone as ->. now apply IH in Hrest.
Qed.

Lemma touches_simulate_loop self trades l :
  touches_only l (simulate_loop self trades l).
Proof.
  induction trades as [|t rest IH]; simpl.
  - apply keeps_touches, keeps_heap_ret.
  - intros w. unfold bind.
    destruct (touches_simulate self l t w) as [Hother Hown].
    destruct (MarketState.simulate self t l w) as [[l1|e] w1] eqn:Hone; simpl in *.
    + apply simulate_returns in Hone as ->.
      destruct (IH w1) as [Hother' Hown']. split.
      * intros l' Hl'. now rewrite Hother', Hother.
      * intros m0 Hm0. destruct (Hown m0 Hm0) as (m1 & Hm1 & Hsub).
        destruct (Hown' m1 Hm1) as (m2 & Hm2 & Hsub').
        exists m2. split; [exact Hm2|]. set_solver.
    + now split.
Qed.

(** ** simulate_trades *)

Lemma simulate_trades_unfold self trades w held :
  heap w !! MarketState.balances self = Some held ->
  MarketState.simulate_trades self trades w =
    simulate_loop self trades (fresh (dom (heap w)))
      (World (<[fresh (dom (heap w)) := held]> (heap w)) (log w)).
Proof.
  intros H. unfold MarketState.simulate_trades, dict_copy, bind, deref.
  now rewrite H.
Qed.

Lemma fresh_unallocated (w : world) : heap w !! fresh (dom (heap w)) = None.
Proof. apply not_elem_of_dom. apply is_fresh. Qed.

(** What [simulate_trades] leaves behind, whether it returns or raises. *)
Lemma simulate_trades_store self trades w held r w' :
  heap w !! MarketState.balances self = Some held ->
  MarketState.simulate_trades self trades w = (r, w') ->
  (forall l, is_Some (heap w !! l) -> heap w' !! l = heap w !! l) /\
  (exists running,
     heap w' !! fresh (dom (heap w)) = Some running /\ dom held ⊆ dom running) /\
  (forall l, r = Ok l -> l = fresh (dom (heap w))).
Proof.
  intros Hheld Hrun. rewrite (simulate_trades_unfold _ _ _ _ Hheld) in Hrun.
  set (l0 := fresh (dom (heap w))) in *.
  set (w0 := World (<[l0 := held]> (heap w)) (log w)) in *.
  destruct (touches_simulate_loop self trades l0 w0) as [Hother Hown].
  rewrite Hrun in Hother, Hown. simpl in Hother, Hown.
  split; [|split].
  - intros l [m Hl]. assert (l <> l0) as Hne.
    { intros ->. unfold l0 in Hl. rewrite fresh_unallocated in Hl. discriminate. }
    rewrite (Hother l Hne). subst w0. simpl. now rewrite lookup_insert_ne.
  - apply Hown. subst w0. simpl. apply lookup_insert_eq.
  - intros l ->. now apply simulate_loop_returns in Hrun.
Qed.

(** C8. On an empty trade sequence [simulate_trades] returns a dictionary
    with the same items as the market state's balances.  For every trade
    sequence, returning or raising, the market state's own balances (and
    every other dictionary that existed) are left as they were, and the
    dictionary returned is a new one. *)
Theorem simulate_trades_frame
    (self : MarketState) (proposed_trades : list ProposedTrade) (w : world)
    (held : gmap string Q) (r : result loc) (w' : world) :
  heap w !! MarketState.balances self = Some held ->
  MarketState.simulate_trades self proposed_trades w = (r, w') ->
  heap w' !! MarketState.balances self = Some held /\
  (forall l, is_Some (heap w !! l) -> heap w' !! l = heap w !! l) /\
  (forall l, r = Ok l ->
     l <> MarketState.balances self /\ heap w !! l = None /\
     is_Some (heap w' !! l)) /\
  (proposed_trades = [] ->
   exists l, r = Ok l /\ heap w' !! l = Some held).
Proof.
  intros Hheld Hrun.
  destruct (simulate_trades_store _ _ _ _ _ _ Hheld Hrun)
    as (Hold & (running & Hrunning & _) & Hnew).
  split; [|split; [|split]].
  - rewrite Hold by eauto. exact Hheld.
  - exact Hold.
  - intros l Hl. apply Hnew in Hl as ->. split; [|split].
    + intros Heq. pose proof (fresh_unallocated w) as Hf.
      rewrite Heq in Hf. congruence.
    + apply fresh_unallocated.
    + eauto.
  - intros ->. rewrite (simulate_trades_unfold _ _ _ _ Hheld) in Hrun.
    simpl in Hrun. unfold ret in Hrun. injection Hrun as <- <-.
    eexists. split; [reflexivity|]. simpl. apply lookup_insert_eq.
Qed.

Lemma simulate_trades_frame_witness :
  exists l w',
    MarketState.simulate_trades eth_state [] sample_world = (Ok l, w') /\
    heap w' !! l = Some (<["BTC" := 1%Q]> {[ "USD" := 0%Q ]}) /\
    l <> MarketState.balances eth_state /\
    heap w' !! MarketState.balances eth_state
      = Some (<["BTC" := 1%Q]> {[ "USD" := 0%Q ]}).
Proof.
  destruct (MarketState.simulate_trades eth_state [] sample_world) as [r w'] eqn:Hrun.
  destruct (simulate_trades_frame eth_state [] sample_world
              (<["BTC" := 1%Q]> {[ "USD" := 0%Q ]}) r w')
    as (Hown & _ & Hnew & Hempty); [reflexivity | exact Hrun |].
  destruct Hempty as (l & -> & Hl); [reflexivity|].
  exists l, w'. split; [reflexivity|]. split; [exact Hl|].
  split; [|exact Hown]. now apply Hnew.
Defined.

Lemma price_any_world self market key w p w1 :
  MarketState.price self market key w = (Ok p, w) ->
  MarketState.price self market key w1 = (Ok p, w1).
Proof.
  intros H. apply price_ok_inv in H as [_ (stats & Hm & Hk)].
  now apply (price_ok _ _ _ stats).
Qed.

(** C10 fails as stated.  With the sell coin missing from the running
    balances, a trade with no fiat leg raises the [RuntimeError] of the
    sizing, and a sell-fiat trade on a market priced at zero raises
    [ZeroDivisionError]: both before the debit of the sell coin is
    reached, so neither raises [KeyError]. *)
Lemma simulate_trades_missing_sell_coin_counterexample :
  (heap sample_world !! MarketState.balances eth_state
     = Some (<["BTC" := 1%Q]> {[ "USD" := 0%Q ]}) /\
   (<["BTC" := 1%Q]> {[ "USD" := 0%Q ]} : gmap string Q)
     !! sell_coin cross_trade = None /\
   exists w2,
     MarketState.simulate_trades eth_state [cross_trade] sample_world
       = (Raise (RuntimeError "No active exception to reraise"), w2)) /\
  (heap eth_world !! MarketState.balances zero_usd_state
     = Some (<["BTC" := 1%Q]> {[ "ETH" := 10%Q ]}) /\
   (<["BTC" := 1%Q]> {[ "ETH" := 10%Q ]} : gmap string Q) !! "USD" = None /\
   exists w2,
     MarketState.simulate_trades zero_usd_state
       [unsized "USD" "BTC" "USD" "USD_BTC" "USD" 100 (25 # 10000)] eth_world
       = (Raise ZeroDivisionError, w2)).
Proof.
  split; (split; [reflexivity|]; split; [reflexivity|]);
    eexists; vm_compute; reflexivity.
Qed.

(** C10 (as amended). When the trades so far have been simulated and the
    next trade's sell coin is not a key of the running balances,
    [simulate_trades] raises: the sell coin is never entered the way an
    absent buy coin is.  For a trade the sizing accepts (its market has a
    non-zero price and one of its legs is the fiat) the exception is
    [KeyError] for that coin: either the debit of the sell coin fails, or,
    on a trade that buys fiat, the balance lookup that sizes it already
    has.  For any other trade it is the exception the sizing raises. *)
Theorem simulate_trades_missing_sell_coin
    (self : MarketState) (pre post : list ProposedTrade) (proposed : ProposedTrade)
    (w w1 : world) (held running : gmap string Q) (l : loc) :
  heap w !! MarketState.balances self = Some held ->
  MarketState.simulate_trades self pre w = (Ok l, w1) ->
  heap w1 !! l = Some running ->
  running !! sell_coin proposed = None ->
  (exists e w2,
     MarketState.simulate_trades self (pre ++ proposed :: post) w = (Raise e, w2)) /\
  (forall bp,
     MarketState.price self (market_name proposed) "weighted_average" w = (Ok bp, w) ->
     ~ (bp == 0)%Q ->
     sell_coin proposed = fiat proposed \/ buy_coin proposed = fiat proposed ->
     exists w2,
       MarketState.simulate_trades self (pre ++ proposed :: post) w
         = (Raise (KeyError (sell_coin proposed)), w2)) /\
  (forall e w2,
     MarketState.set_sell_amount self proposed w1 = (Raise e, w2) ->
     MarketState.simulate_trades self (pre ++ proposed :: post) w = (Raise e, w2)).
Proof.
  intros Hheld Hpre Hrunning Habsent.
  destruct (simulate_trades_store _ _ _ _ _ _ Hheld Hpre)
    as (Hold & (running' & Hrunning' & Hsub) & Hnew).
  rewrite <- (Hnew l eq_refl) in Hrunning'.
  rewrite Hrunning in Hrunning'. injection Hrunning' as <-.
  assert (Hheld1 : heap w1 !! MarketState.balances self = Some held)
    by (rewrite Hold by eauto; exact Hheld).
  assert (Hheld_absent : held !! sell_coin proposed = None).
  { apply not_elem_of_dom. intros Hin. apply Hsub in Hin.
    apply elem_of_dom in Hin as [? Hin]. congruence. }
  assert (Hstep : forall r w2,
    MarketState.simulate self proposed l w1 = (r, w2) ->
    MarketState.simulate_trades self (pre ++ proposed :: post) w
      = (match r with
         | Ok l' => simulate_loop self post l' w2
         | Raise e => (Raise e, w2)
         end)).
  { intros r w2 Hone.
    rewrite (simulate_trades_unfold _ pre _ _ Hheld) in Hpre.
    rewrite (simulate_trades_unfold _ (pre ++ proposed :: post) _ _ Hheld).
    rewrite for_each_app. rewrite (bind_ok _ _ _ _ _ Hpre). simpl.
    unfold bind at 1. rewrite Hone. now destruct r. }
  split; [|split].
  - destruct (MarketState.simulate self proposed l w1) as [[l'|e] w2] eqn:Hone.
    + exfalso. unfold MarketState.simulate in Hone.
      apply bind_ok_inv in Hone as (trade' & w3 & Hsized & Hrest).
      destruct (set_sell_amount_inv _ _ _ _ _ Hsized)
        as [-> (bp & s & _ & _ & _ & ->)].
      apply bind_ok_inv in Hrest as (old & w4 & Hget & _).
      apply dict_get_ok_inv in Hget as [_ (m & Hm & Hold')].
      simpl in Hold'. rewrite Hrunning in Hm. injection Hm as <-. congruence.
    + exists e, w2. exact (Hstep _ _ eq_refl).
  - intros bp Hp Hnz Hfiat.
    pose proof (price_any_world _ _ _ _ _ w1 Hp) as Hp1.
    assert (Hone : exists w2,
               MarketState.simulate self proposed l w1
                 = (Raise (KeyError (sell_coin proposed)), w2)).
    { unfold MarketState.simulate.
      destruct (decide (sell_coin proposed = fiat proposed)) as [Hs|Hs].
      - exists w1.
        rewrite (bind_ok _ _ _ _ _
                   (set_sell_amount_ok _ _ _ (fiat_value_to_trade proposed) _ Hp1 Hnz
                      (size_sell_leg_sell_fiat self (priced proposed bp) w1 Hs))).
        apply bind_raise. simpl. now apply (dict_get_missing _ _ _ running).
      - destruct Hfiat as [Hs'|Hb]; [contradiction|].
        exists w1. apply bind_raise. unfold MarketState.set_sell_amount.
        rewrite (bind_ok _ _ _ _ _
                   (estimate_price_ok _ _ _ _ Hp1 (fun _ => Hnz))).
        apply bind_raise. unfold MarketState.size_sell_leg.
        rewrite bool_decide_eq_false_2 by exact Hs.
        rewrite bool_decide_eq_true_2 by exact Hb.
        apply bind_raise. simpl. unfold MarketState.balance.
        now apply (dict_get_missing _ _ _ held). }
    destruct Hone as (w2 & Hone). exists w2. exact (Hstep _ _ Hone).
  - intros e w2 Hsized.
    apply (Hstep (Raise e) w2). unfold MarketState.simulate.
    now apply bind_raise.
Qed.

Lemma dict_set_ok d key v w m :
  heap w !! d = Some m ->
  dict_set d key v w = (Ok tt, World (<[d := <[key := v]> m]> (heap w)) (log w)).
Proof. intros H. unfold dict_set, bind, deref. now rewrite H. Qed.

Lemma dict_mem_ok d key w m :
  heap w !! d = Some m ->
  dict_mem d key w = (Ok (bool_decide (is_Some (m !! key))), w).
Proof. intros H. unfold dict_mem, bind, deref, ret. now rewrite H. Qed.

(** The other half of [simulate]: a buy coin that is not yet a key is
    entered at zero before it is credited, while the sell coin must be
    there to be debited. *)
Lemma simulate_credits_absent_buy_coin self l proposed bp s old running w :
  MarketState.set_sell_amount self proposed w = (Ok (sized proposed bp s), w) ->
  ~ (direction_price proposed bp == 0)%Q ->
  heap w !! l = Some running ->
  running !! sell_coin proposed = Some old ->
  running !! buy_coin proposed = None ->
  exists w' running',
    MarketState.simulate self proposed l w = (Ok l, w') /\
    heap w' !! l = Some running' /\
    running' !! sell_coin proposed = Some (old - s)%Q /\
    running' !! buy_coin proposed = Some (0 + s / direction_price proposed bp)%Q /\
    log w' = log w.
Proof.
  intros Hsized Hnz Hl Hsell Hbuy.
  assert (Hne : sell_coin proposed <> buy_coin proposed) by congruence.
  unfold MarketState.simulate.
  rewrite (bind_ok _ _ _ _ _ Hsized). simpl.
  rewrite (bind_ok _ _ _ _ _ (dict_get_ok _ _ _ _ _ Hl Hsell)).
  unfold bind at 1. unfold ret at 1.
  rewrite (bind_ok _ _ _ _ _ (dict_set_ok _ _ _ _ _ Hl)).
  set (w1 := World _ _).
  assert (Hl1 : heap w1 !! l = Some (<[sell_coin proposed := (old - s)%Q]> running))
    by apply lookup_insert_eq.
  rewrite (bind_ok _ _ _ _ _ (dict_mem_ok _ (buy_coin proposed) _ _ Hl1)).
  rewrite bool_decide_eq_false_2
    by (rewrite lookup_insert_ne by exact Hne; rewrite Hbuy; apply is_Some_None).
  rewrite (bind_ok _ _ _ _ _ (dict_set_ok _ (buy_coin proposed) 0%Q _ _ Hl1)).
  set (w2 := World _ _).
  assert (Hl2 : heap w2 !! l
                = Some (<[buy_coin proposed := 0%Q]>
                          (<[sell_coin proposed := (old - s)%Q]> running)))
    by apply lookup_insert_eq.
  unfold bind at 1. unfold ret at 1.
  unfold bind at 1. unfold ret at 1.
  rewrite (bind_ok _ _ _ _ _ (div_ok s _ w2 Hnz)).
  rewrite (bind_ok _ _ _ _ _
             (dict_get_ok _ (buy_coin proposed) _ _ _ Hl2 (lookup_insert_eq _ _ _))).
  rewrite (bind_ok _ _ _ _ _ (dict_set_ok _ (buy_coin proposed) _ _ _ Hl2)).
  unfold ret. eexists _, _. split; [reflexivity|]. simpl.
  split; [apply lookup_insert_eq|]. split; [|split; [|reflexivity]].
  - rewrite !lookup_insert_ne by congruence. apply lookup_insert_eq.
  - apply lookup_insert_eq.
Qed.

Lemma simulate_trades_missing_sell_coin_witness :
  exists w2,
    MarketState.simulate_trades eth_state ([] ++ buy_fiat_trade :: []) sample_world
      = (Raise (KeyError "ETH"), w2).
Proof.
  edestruct (simulate_trades_missing_sell_coin eth_state [] [] buy_fiat_trade
               sample_world) as (_ & Hkey & _).
  - reflexivity.
  - reflexivity.
  - vm_compute. reflexivity.
  - reflexivity.
  - apply (Hkey 2%Q); [reflexivity | discriminate | right; reflexivity].
Defined.

(** ** filter_legal *)

(** C1, as the code has it. A priced trade that bids more than is held
    does not come out of [filter_legal] as a skipped trade: building the
    warning reads the unbound name [balances], and the first [next] on the
    generator (hence also draining it) raises [NameError]. *)
Theorem filter_legal_oversized_bid_raises
    (market_state : MarketState) (proposed : ProposedTrade) (held : Q) (w : world) :
  MarketAdapter.falsy (price proposed) = false ->
  dict_get (MarketState.balances market_state) (from_coin proposed) w = (Ok held, w) ->
  (held < bid_amount proposed)%Q ->
  @MarketAdapter.next MarketAdapter.base
    (MarketAdapter.filter_legal [proposed] market_state) w
    = (Raise (NameError "balances"), w) /\
  @MarketAdapter.exhaust MarketAdapter.base
    (MarketAdapter.filter_legal [proposed] market_state) w
    = (Raise (NameError "balances"), w).
Proof.
  intros Hprice Hheld Hover.
  assert (Hlegal : MarketAdapter.is_legal proposed market_state w
                   = (Raise (NameError "balances"), w)).
  { unfold MarketAdapter.is_legal. rewrite Hprice.
    rewrite (bind_ok _ _ _ _ _ Hheld).
    apply Qltb_lt in Hover. now rewrite Hover. }
  split.
  - unfold MarketAdapter.next, MarketAdapter.filter_legal. simpl.
    now apply bind_raise.
  - unfold MarketAdapter.exhaust, MarketAdapter.filter_legal. simpl.
    now apply bind_raise.
Qed.

Lemma filter_legal_oversized_bid_raises_witness :
  @MarketAdapter.exhaust MarketAdapter.base
    (MarketAdapter.filter_legal [oversized_trade] eth_state) sample_world
    = (Raise (NameError "balances"), sample_world).
Proof.
  apply (filter_legal_oversized_bid_raises eth_state oversized_trade 1 sample_world).
  - reflexivity.
  - reflexivity.
  - reflexivity.
Defined.

(** The same oversized bid on a trade with no price is skipped with a
    warning: the first check returns before the balance is looked at. *)
Lemma filter_legal_unpriced_skipped market_state proposed w :
  MarketAdapter.falsy (price proposed) = true ->
  @MarketAdapter.exhaust MarketAdapter.base
    (MarketAdapter.filter_legal [proposed] market_state) w
    = (Ok [],
       World (heap w)
         (log w ++ [Printed "WARN: Filtering out proposed trade: trade has no price. Proposed"
                      [proposed]])).
Proof.
  intros H. unfold MarketAdapter.exhaust, MarketAdapter.filter_legal. simpl.
  unfold MarketAdapter.is_legal. rewrite H. reflexivity.
Qed.

(** ** Fund.step *)

(** C2, as the code has it. [step] never returns a value: when the market
    state is obtained, the strategy has proposed, and any proposed trades
    have been filtered and executed, the closing call passes no balances
    to [estimate_total_value_usd] and raises [TypeError]. *)
Theorem step_raises_type_error
    {MarketHistoryT : Type} (strategy : Strategy.ops MarketHistoryT)
    (adapter : Adapter.ops) (history : MarketHistoryT) (time : datetime)
    (w : world) :
  (forall usd_value w', Fund.step strategy adapter history time w <> (Ok usd_value, w')) /\
  (forall market_state w1 proposed_trades w2 w3,
     Adapter.get_market_state time w = (Ok market_state, w1) ->
     Strategy.propose_trades market_state history w1 = (Ok proposed_trades, w2) ->
     (if Fund.truthy proposed_trades
      then Adapter.execute
             (MarketAdapter.filter_legal (default [] proposed_trades) market_state)
             market_state
      else ret tt) w2 = (Ok tt, w3) ->
     Fund.step strategy adapter history time w
       = (Raise (TypeError "missing 1 required positional argument"), w3)).
Proof.
  split.
  - intros usd_value w' H. unfold Fund.step in H.
    apply bind_ok_inv in H as (market_state & w1 & _ & H).
    apply bind_ok_inv in H as (proposed_trades & w2 & _ & H).
    apply bind_ok_inv in H as (u & w3 & _ & H).
    apply bind_ok_inv in H as (v & w4 & H & _).
    discriminate H.
  - intros market_state w1 proposed_trades w2 w3 Hstate Hpropose Hexec.
    unfold Fund.step.
    rewrite (bind_ok _ _ _ _ _ Hstate).
    rewrite (bind_ok _ _ _ _ _ Hpropose).
    rewrite (bind_ok _ _ _ _ _ Hexec).
    reflexivity.
Qed.

Lemma step_raises_type_error_witness :
  Fund.step idle_strategy snapshot_adapter tt 0%Z sample_world
    = (Raise (TypeError "missing 1 required positional argument"), sample_world).
Proof.
  destruct (step_raises_type_error idle_strategy snapshot_adapter tt 0%Z sample_world)
    as [_ H].
  apply (H eth_state sample_world None sample_world sample_world);
    reflexivity.
Defined.

(** * Further properties *)

(** ** Market names *)

Lemma split_once_join sep before after :
  contains sep before = false ->
  split_once sep (before +:+ String sep after) = Some (before, after).
Proof.
  induction before as [|c before IH]; simpl; intros H.
  - now rewrite Ascii.eqb_refl.
  - apply orb_false_iff in H as [Hc H]. now rewrite Hc, IH.
Qed.

Lemma split_once_parts sep s : forall before after,
  split_once sep s = Some (before, after) ->
  s = before +:+ String sep after /\ contains sep before = false.
Proof.
  induction s as [|c s IH]; intros before after; simpl; [discriminate|].
  destruct (Ascii.eqb c sep) eqn:E.
  - apply Ascii.eqb_eq in E as ->. intros [= <- <-]. now split.
  - destruct (split_once sep s) as [[b a]|]; [|discriminate].
    intros [= <- <-]. destruct (IH b a eq_refl) as [-> Hc].
    simpl. rewrite E. now split.
Qed.

Lemma split_once_Some sep s before after :
  split_once sep s = Some (before, after) <->
  s = before +:+ String sep after /\ contains sep before = false.
Proof.
  split; [apply split_once_parts|].
  intros [-> H]. now apply split_once_join.
Qed.

Lemma split_once_None sep s :
  split_once sep s = None <-> contains sep s = false.
Proof.
  induction s as [|c s IH]; simpl; [easy|].
  destruct (Ascii.eqb c sep); simpl; [easy|].
  destruct (split_once sep s) as [[b a]|]; [|easy].
  split; [discriminate|]. intros H. apply IH in H. discriminate H.
Qed.

Lemma market_of_unfold base quote :
  MarketState.market_of base quote = base +:+ String underscore quote.
Proof. reflexivity. Qed.

Lemma coin_names_ValueError name :
  (exists what, MarketState._coin_names name = ValueError what) <->
  contains underscore name = false.
Proof.
  unfold MarketState._coin_names. rewrite <- split_once_None.
  destruct (split_once underscore name) as [[b q]|]; split;
    try discriminate; try reflexivity; eauto.
  intros [what H]. discriminate H.
Qed.

(** X1. [_coin_names] undoes the market name built from a base without
    underscore and any quote, and these are the only names it accepts with
    that answer; a name with no underscore at all cannot be unpacked and
    raises [ValueError]. *)
Theorem coin_names_round_trip (name base quote : string) :
  (MarketState._coin_names name = Fine (base, quote) <->
   name = MarketState.market_of base quote /\ contains underscore base = false) /\
  ((exists what, MarketState._coin_names name = ValueError what) <->
   contains underscore name = false).
Proof.
  unfold MarketState._coin_names. split.
  - rewrite market_of_unfold, <- split_once_Some.
    destruct (split_once underscore name) as [[b q]|]; split; congruence.
  - rewrite <- split_once_None.
    destruct (split_once underscore name) as [[b q]|]; split.
    + intros [what H]. discriminate H.
    + discriminate.
    + reflexivity.
    + intros _. eauto.
Qed.

(** ** Available and held coins *)

Lemma elem_of_available_markets self market :
  market ∈ MarketState._available_markets self <->
  is_Some (MarketState.chart_data self !! market) /\
  String.prefix (MarketState.fiat self) market = true.
Proof.
  unfold MarketState._available_markets.
  rewrite elem_of_filter, elem_of_dom. tauto.
Qed.

Lemma quote_coins_Fine markets coins :
  MarketState.quote_coins markets = Fine coins ->
  forall coin, coin ∈ coins <->
    exists market base, market ∈ markets /\
                        MarketState._coin_names market = Fine (base, coin).
Proof.
  revert coins. induction markets as [|m rest IH]; intros coins H coin; simpl in H.
  - injection H as <-. split; [set_solver|].
    intros (market & base & Hin & _). inversion Hin.
  - destruct (MarketState._coin_names m) as [[b q]|] eqn:Hm; [|discriminate].
    destruct (MarketState.quote_coins rest) as [coins'|] eqn:Hrest; [|discriminate].
    injection H as <-. rewrite elem_of_union, elem_of_singleton, (IH _ eq_refl).
    simpl. split.
    + intros [-> | (market & base & Hin & Hn)].
      * exists m, b. split; [left | exact Hm].
      * exists market, base. split; [now right | exact Hn].
    + intros (market & base & Hin & Hn).
      apply elem_of_cons in Hin as [-> | Hin].
      * left. congruence.
      * right. eauto.
Qed.

Lemma quote_coins_ValueError markets :
  (exists what, MarketState.quote_coins markets = ValueError what) <->
  exists market, market ∈ markets /\ contains underscore market = false.
Proof.
  induction markets as [|m rest IH]; simpl.
  - split; [intros [? H]; discriminate H | intros (? & H & _); inversion H].
  - pose proof (coin_names_ValueError m) as Herr.
    destruct (MarketState._coin_names m) as [[b q]|what] eqn:Hm.
    + destruct (MarketState.quote_coins rest) as [coins|what] eqn:Hrest.
      * split; [intros [? H]; discriminate H|].
        intros (market & Hin & Hc). apply elem_of_cons in Hin as [-> | Hin].
        -- apply Herr in Hc as [? Hc]. discriminate Hc.
        -- destruct (proj2 IH) as [? H]; [eauto | discriminate H].
      * split; [|eauto]. intros _.
        destruct (proj1 IH) as (market & Hin & Hc); [eauto|].
        exists market. split; [now right | exact Hc].
    + split; [|eauto]. intros _. exists m. split; [left|].
      apply Herr. eauto.
Qed.

(** X2. When [available_coins] returns, the set holds the fiat symbol,
    and besides it exactly the quote coins of the chart markets whose name
    starts with the fiat symbol: the test is on the prefix of the name, not
    on its base coin. *)
Theorem available_coins_members (self : MarketState) (coins : gset string) :
  MarketState.available_coins self = Fine coins ->
  MarketState.fiat self ∈ coins /\
  forall coin, coin ∈ coins <->
    coin = MarketState.fiat self \/
    exists market base,
      is_Some (MarketState.chart_data self !! market) /\
      String.prefix (MarketState.fiat self) market = true /\
      MarketState._coin_names market = Fine (base, coin).
Proof.
  unfold MarketState.available_coins.
  destruct (MarketState.quote_coins _) as [quotes|] eqn:Hq; [|discriminate].
  intros [= <-]. split; [set_solver|]. intros coin.
  rewrite elem_of_union, elem_of_singleton, (quote_coins_Fine _ _ Hq).
  split.
  - intros [(market & base & Hin & Hn) | ->]; [right | now left].
    apply elem_of_elements, elem_of_available_markets in Hin as [Hc Hp].
    exists market, base. auto.
  - intros [-> | (market & base & Hc & Hp & Hn)]; [now right | left].
    exists market, base. split; [|exact Hn].
    apply elem_of_elements, elem_of_available_markets. auto.
Qed.

Lemma available_coins_members_witness :
  MarketState.available_coins eth_state = Fine ({[ "ETH" ]} ∪ {[ "BTC" ]}) /\
  "BTC" ∈ ({[ "ETH" ]} ∪ {[ "BTC" ]} : gset string) /\
  "ETH" ∈ ({[ "ETH" ]} ∪ {[ "BTC" ]} : gset string).
Proof.
  assert (H : MarketState.available_coins eth_state
              = Fine ({[ "ETH" ]} ∪ {[ "BTC" ]})) by (vm_compute; reflexivity).
  split; [exact H|].
  destruct (available_coins_members eth_state _ H) as [Hfiat Hall].
  split; [exact Hfiat|]. apply Hall. right.
  exists "BTC_ETH", "BTC". repeat split. now exists (weighted_average 2).
Defined.

(** X3. [available_coins] raises [ValueError] exactly when some chart
    market whose name starts with the fiat symbol has no underscore in its
    name. *)
Theorem available_coins_value_error (self : MarketState) :
  (exists what, MarketState.available_coins self = ValueError what) <->
  exists market,
    is_Some (MarketState.chart_data self !! market) /\
    String.prefix (MarketState.fiat self) market = true /\
    contains underscore market = false.
Proof.
  unfold MarketState.available_coins.
  pose proof (quote_coins_ValueError
                (elements (MarketState._available_markets self))) as Hq.
  destruct (MarketState.quote_coins _) as [quotes|what].
  - split.
    + intros [? H]. discriminate H.
    + intros (market & Hc & Hp & Hu).
      destruct (proj2 Hq) as [? H]; [|discriminate H].
      exists market. split; [|exact Hu].
      apply elem_of_elements, elem_of_available_markets. auto.
  - split; [|eauto]. intros _.
    destruct (proj1 Hq) as (market & Hin & Hu); [eauto|].
    apply elem_of_elements, elem_of_available_markets in Hin as [Hc Hp].
    exists market. auto.
Qed.

Lemma held_coins_run self items w :
  heap w !! MarketState.balances self = Some items ->
  exists held,
    MarketState._held_coins self w = (Ok held, w) /\
    forall coin, coin ∈ held <->
      exists amount, items !! coin = Some amount /\ (0 < amount)%Q.
Proof.
  intros H. unfold MarketState._held_coins, bind, deref, ret. rewrite H.
  eexists. split; [reflexivity|]. intros coin.
  rewrite elem_of_dom. unfold is_Some.
  split; intros [amount Ha]; exists amount.
  - apply map_lookup_filter_Some in Ha as [Ha Hpos]. simpl in Hpos.
    split; [exact Ha | now apply Qltb_lt].
  - apply map_lookup_filter_Some. destruct Ha as [Ha Hpos].
    split; [exact Ha | now apply Qltb_lt].
Qed.

(** X4. [only_holding(coin)] answers true exactly when the balance of
    [coin] is positive and no other coin has a positive balance; zero and
    negative balances do not count as holdings. *)
Theorem only_holding_iff
    (self : MarketState) (coin : string) (items : gmap string Q) (w : world) :
  heap w !! MarketState.balances self = Some items ->
  exists answer,
    MarketState.only_holding self coin w = (Ok answer, w) /\
    (answer = true <->
     (exists amount, items !! coin = Some amount /\ (0 < amount)%Q) /\
     (forall other amount,
        other <> coin -> items !! other = Some amount -> (amount <= 0)%Q)).
Proof.
  intros H. destruct (held_coins_run self items w H) as (held & Hrun & Hheld).
  unfold MarketState.only_holding. rewrite (bind_ok _ _ _ _ _ Hrun).
  eexists. split; [reflexivity|]. rewrite bool_decide_eq_true. split.
  - intros ->. split.
    + apply Hheld. set_solver.
    + intros other amount Hne Ha. apply Qnot_lt_le. intros Hpos.
      assert (other ∈ ({[ coin ]} : gset string)) by (apply Hheld; eauto).
      set_solver.
  - intros [Hcoin Hothers]. apply set_eq. intros c.
    rewrite Hheld, elem_of_singleton. split.
    + intros (amount & Ha & Hpos). destruct (decide (c = coin)) as [|Hne]; [easy|].
      exfalso. apply (Qlt_not_le _ _ Hpos). now apply (Hothers c).
    + intros ->. exact Hcoin.
Qed.

Lemma only_holding_iff_witness :
  MarketState.only_holding eth_state "BTC" sample_world = (Ok true, sample_world).
Proof.
  destruct (only_holding_iff eth_state "BTC" (<["BTC" := 1%Q]> {[ "USD" := 0%Q ]})
              sample_world) as (answer & Hrun & Hiff); [reflexivity|].
  rewrite Hrun. f_equal. f_equal. apply Hiff. split.
  - exists 1%Q. split; reflexivity.
  - intros other amount Hne Ha.
    rewrite lookup_insert_ne in Ha by congruence.
    apply lookup_singleton_Some in Ha as [_ <-]. discriminate.
Defined.

(** X5. When the available coins can be computed, [available_coins_not_held]
    and [held_coins_with_chart_data] split them in two: the two answers
    are disjoint, their union is the set of available coins, and a coin is
    in the second exactly when it is available and its balance is
    positive. *)
Theorem available_coins_split
    (self : MarketState) (available : gset string) (items : gmap string Q)
    (w : world) :
  heap w !! MarketState.balances self = Some items ->
  MarketState.available_coins self = Fine available ->
  exists not_held with_data,
    MarketState.available_coins_not_held self w = (Ok (Fine not_held), w) /\
    MarketState.held_coins_with_chart_data self w = (Ok (Fine with_data), w) /\
    not_held ∪ with_data = available /\
    not_held ∩ with_data = ∅ /\
    forall coin, coin ∈ with_data <->
      coin ∈ available /\
      exists amount, items !! coin = Some amount /\ (0 < amount)%Q.
Proof.
  intros H Hav. destruct (held_coins_run self items w H) as (held & Hrun & Hheld).
  exists (available ∖ held), (held ∩ available).
  unfold MarketState.available_coins_not_held,
    MarketState.held_coins_with_chart_data.
  rewrite Hav, !(bind_ok _ _ _ _ _ Hrun).
  split; [reflexivity|]. split; [reflexivity|].
  split; [|split].
  - apply set_eq. intros c.
    rewrite elem_of_union, elem_of_difference, elem_of_intersection.
    destruct (decide (c ∈ held)); tauto.
  - apply set_eq. intros c.
    rewrite elem_of_intersection, elem_of_difference, elem_of_intersection,
      elem_of_empty. tauto.
  - intros c. rewrite elem_of_intersection, Hheld. tauto.
Qed.

Lemma available_coins_split_witness :
  exists not_held with_data,
    MarketState.available_coins_not_held eth_state sample_world
      = (Ok (Fine not_held), sample_world) /\
    MarketState.held_coins_with_chart_data eth_state sample_world
      = (Ok (Fine with_data), sample_world) /\
    not_held ∪ with_data = {[ "ETH" ]} ∪ {[ "BTC" ]} /\
    "BTC" ∈ with_data.
Proof.
  destruct (available_coins_split eth_state ({[ "ETH" ]} ∪ {[ "BTC" ]})
              (<["BTC" := 1%Q]> {[ "USD" := 0%Q ]}) sample_world)
    as (not_held & with_data & H1 & H2 & Hu & _ & Hin);
    [reflexivity | vm_compute; reflexivity |].
  exists not_held, with_data. repeat split; try assumption.
  apply Hin. split; [set_solver|]. exists 1%Q. split; reflexivity.
Defined.

(** ** Valuation of a whole portfolio *)

Lemma keeps_heap_for_each {A B} (body : B -> A -> M B) items :
  (forall acc x, keeps_heap (body acc x)) ->
  forall acc, keeps_heap (for_each body items acc).
Proof.
  intros Hbody. induction items as [|x rest IH]; intros acc; simpl.
  - apply keeps_heap_ret.
  - apply keeps_heap_bind; [apply Hbody | intros; apply IH].
Qed.

Lemma keeps_heap_estimate_value self coin amount reference_coin :
  keeps_heap (MarketState.estimate_value self coin amount reference_coin).
Proof.
  unfold MarketState.estimate_value, logger_warning.
  repeat keeps_heap_step.
Qed.

Lemma keeps_heap_estimate_values self held reference_coin :
  keeps_heap (MarketState.estimate_values self held reference_coin).
Proof.
  unfold MarketState.estimate_values.
  apply keeps_heap_bind; [apply keeps_heap_deref|]. intros items.
  apply keeps_heap_for_each. intros acc [coin amount].
  unfold MarketState.estimate_values_body.
  apply keeps_heap_bind; [apply keeps_heap_estimate_value|].
  intros. apply keeps_heap_ret.
Qed.

Lemma keeps_heap_estimate_total_value_usd self held :
  keeps_heap (MarketState.estimate_total_value_usd self held).
Proof.
  unfold MarketState.estimate_total_value_usd, MarketState.estimate_total_value.
  apply keeps_heap_bind.
  - apply keeps_heap_bind; [apply keeps_heap_estimate_values|].
    intros. apply keeps_heap_ret.
  - intros. apply keeps_heap_bind; [apply keeps_heap_price|].
    intros. apply keeps_heap_ret.
Qed.

Lemma fst_map_to_list_lookup (items : gmap string Q) coin :
  coin ∈ (map_to_list items).*1 <-> is_Some (items !! coin).
Proof.
  rewrite list_elem_of_fmap. split.
  - intros ([k v] & -> & Hin). apply elem_of_map_to_list in Hin. now exists v.
  - intros [v Hv]. exists (coin, v). split; [reflexivity|].
    now apply elem_of_map_to_list.
Qed.

Lemma estimate_values_ok_each self held reference_coin items values w w' :
  heap w !! held = Some items ->
  MarketState.estimate_values self held reference_coin w = (Ok values, w') ->
  forall coin amount,
    items !! coin = Some amount ->
    exists v,
      fst (MarketState.estimate_value self coin amount reference_coin w) = Ok v.
Proof.
  intros Hheld Hrun coin amount Hcoin.
  unfold MarketState.estimate_values, bind, deref in Hrun. rewrite Hheld in Hrun.
  destruct (estimate_values_loop_lookup self reference_coin _
              (NoDup_fst_map_to_list items) _ _ _ _ Hrun coin) as [Hin _].
  destruct (Hin amount) as (v & Hv & _); [now apply elem_of_map_to_list|].
  now exists v.
Qed.

(** X6. Whenever [estimate_values] returns, the dictionary it returns has
    exactly the keys of the balances it was given, each mapped to the
    value [estimate_value] gives that holding, or to zero where
    [estimate_value] answered [None]; the store is as it was. *)
Theorem estimate_values_pointwise
    (self : MarketState) (held : loc) (reference_coin : string)
    (items values : gmap string Q) (w w' : world) :
  heap w !! held = Some items ->
  MarketState.estimate_values self held reference_coin w = (Ok values, w') ->
  heap w' = heap w /\
  dom values = dom items /\
  forall coin amount,
    items !! coin = Some amount ->
    exists v,
      fst (MarketState.estimate_value self coin amount reference_coin w) = Ok v /\
      values !! coin = Some (MarketState.value_or_zero v).
Proof.
  intros Hheld Hrun.
  pose proof (keeps_heap_estimate_values self held reference_coin w) as Hframe.
  rewrite Hrun in Hframe. simpl in Hframe.
  unfold MarketState.estimate_values, bind, deref in Hrun. rewrite Hheld in Hrun.
  pose proof (estimate_values_loop_lookup self reference_coin _
                (NoDup_fst_map_to_list items) _ _ _ _ Hrun) as Hloop.
  split; [exact Hframe|]. split.
  - apply set_eq. intros coin. rewrite !elem_of_dom.
    destruct (Hloop coin) as [Hin Hout].
    destruct (items !! coin) as [amount|] eqn:Hc.
    + destruct (Hin amount) as (v & _ & Hv); [now apply elem_of_map_to_list|].
      rewrite Hv. split; eauto.
    + rewrite Hout, lookup_empty; [reflexivity|].
      rewrite fst_map_to_list_lookup, Hc. apply is_Some_None.
  - intros coin amount Hc. apply (proj1 (Hloop coin)).
    now apply elem_of_map_to_list.
Qed.

Lemma estimate_values_pointwise_witness :
  exists values w',
    MarketState.estimate_values usd_state 1%positive "BTC" sample_world
      = (Ok values, w') /\
    dom values = dom (<["BTC" := 1%Q]> ({[ "USD" := 0%Q ]} : gmap string Q)).
Proof.
  destruct (MarketState.estimate_values usd_state 1%positive "BTC" sample_world)
    as [[values|e] w'] eqn:Hrun; [|vm_compute in Hrun; discriminate Hrun].
  exists values, w'. split; [reflexivity|].
  now destruct (estimate_values_pointwise usd_state 1%positive "BTC"
                  (<["BTC" := 1%Q]> {[ "USD" := 0%Q ]}) values sample_world w'
                  eq_refl Hrun) as (_ & Hdom & _).
Defined.

(** X7. One holding that [estimate_value] cannot value for a reason other
    than a missing market (a statistic that is not there, a zero price on
    the inverted market) fails the whole valuation: [estimate_values],
    [estimate_total_value] and [estimate_total_value_usd] all raise. *)
Theorem estimate_values_one_failure_fails_all
    (self : MarketState) (held : loc) (reference_coin coin : string)
    (amount : Q) (items : gmap string Q) (e : exn) (w : world) :
  heap w !! held = Some items ->
  items !! coin = Some amount ->
  fst (MarketState.estimate_value self coin amount reference_coin w) = Raise e ->
  (exists e' w',
     MarketState.estimate_values self held reference_coin w = (Raise e', w')) /\
  (exists e' w',
     MarketState.estimate_total_value self held reference_coin w = (Raise e', w')) /\
  (reference_coin = "BTC" ->
   exists e' w',
     MarketState.estimate_total_value_usd self held w = (Raise e', w')).
Proof.
  intros Hheld Hcoin Hfail.
  assert (Hvalues : exists e' w',
    MarketState.estimate_values self held reference_coin w = (Raise e', w')).
  { destruct (MarketState.estimate_values self held reference_coin w)
      as [[values|e'] w'] eqn:Hrun; [|eauto].
    destruct (estimate_values_ok_each _ _ _ _ _ _ _ Hheld Hrun coin amount Hcoin)
      as (v & Hv). congruence. }
  destruct Hvalues as (e' & w' & Hvalues).
  assert (Htotal :
    MarketState.estimate_total_value self held reference_coin w = (Raise e', w'))
    by (unfold MarketState.estimate_total_value; now apply bind_raise).
  split; [eauto|]. split; [eauto|].
  intros ->. exists e', w'. unfold MarketState.estimate_total_value_usd.
  now apply bind_raise.
Qed.

Lemma estimate_values_one_failure_fails_all_witness :
  exists e' w',
    MarketState.estimate_total_value_usd zero_usd_state 1%positive sample_world
      = (Raise e', w').
Proof.
  destruct (estimate_values_one_failure_fails_all zero_usd_state 1%positive
              "BTC" "USD" 0 (<["BTC" := 1%Q]> {[ "USD" := 0%Q ]})
              ZeroDivisionError sample_world) as (_ & _ & H);
    [reflexivity | reflexivity | reflexivity |].
  now apply H.
Defined.

(** X8. Valuation only reads: [estimate_value], [estimate_values] and
    [estimate_total_value_usd] leave every balances dictionary in the
    store as it was, whether they return or raise. *)
Theorem valuation_reads_only
    (self : MarketState) (held : loc) (coin reference_coin : string)
    (amount : Q) (w : world) :
  heap (snd (MarketState.estimate_value self coin amount reference_coin w)) = heap w /\
  heap (snd (MarketState.estimate_values self held reference_coin w)) = heap w /\
  heap (snd (MarketState.estimate_total_value_usd self held w)) = heap w.
Proof.
  split; [apply keeps_heap_estimate_value|].
  split; [apply keeps_heap_estimate_values|].
  apply keeps_heap_estimate_total_value_usd.
Qed.

Lemma round_half_even_close (q : Q) :
  (Qabs (inject_Z (round_half_even q) - q) <= 1 # 2)%Q.
Proof.
  pose proof (Qfloor_le q) as Hlo. pose proof (Qlt_floor q) as Hhi.
  rewrite inject_Z_plus in Hhi. change (inject_Z 1) with 1%Q in Hhi.
  apply Qabs_Qle_condition. unfold round_half_even.
  destruct (q - inject_Z (Qfloor q) ?= 1 # 2)%Q eqn:Hcmp.
  - apply Qeq_alt in Hcmp.
    destruct (Z.even (Qfloor q));
      [|rewrite inject_Z_plus; change (inject_Z 1) with 1%Q]; split; lra.
  - apply Qlt_alt in Hcmp. split; lra.
  - apply Qgt_alt in Hcmp. rewrite inject_Z_plus.
    change (inject_Z 1) with 1%Q. split; lra.
Qed.

Lemma round2_cents (q : Q) :
  (round2 q == round_half_even (q * 100) # 100)%Q.
Proof.
  unfold round2, Qdiv. change (/ 100)%Q with (1 # 100)%Q.
  unfold Qeq, Qmult, inject_Z. cbn [Qnum Qden]. lia.
Qed.

Lemma round2_close (q : Q) : (Qabs (round2 q - q) <= 1 # 200)%Q.
Proof.
  pose proof (round_half_even_close (q * 100)) as H.
  apply Qabs_Qle_condition in H. apply Qabs_Qle_condition.
  unfold round2, Qdiv. change (/ 100)%Q with (1 # 100)%Q.
  split; lra.
Qed.

(** X9. When the BTC total and the price of [USD_BTC] are there,
    [estimate_total_value_usd] returns a whole number of cents that lies
    within half a cent of total times price. *)
Theorem estimate_total_value_usd_rounds
    (self : MarketState) (held : loc) (total p : Q) (w w1 : world) :
  MarketState.estimate_total_value self held "BTC" w = (Ok total, w1) ->
  MarketState.price self "USD_BTC" "weighted_average" w1 = (Ok p, w1) ->
  exists usd cents,
    MarketState.estimate_total_value_usd self held w = (Ok usd, w1) /\
    (usd == cents # 100)%Q /\
    (Qabs (usd - total * p) <= 1 # 200)%Q.
Proof.
  intros Htotal Hp.
  exists (round2 (total * p)), (round_half_even (total * p * 100)).
  split; [|split].
  - unfold MarketState.estimate_total_value_usd.
    rewrite (bind_ok _ _ _ _ _ Htotal), (bind_ok _ _ _ _ _ Hp). reflexivity.
  - apply round2_cents.
  - apply round2_close.
Qed.

Lemma estimate_total_value_usd_rounds_witness :
  exists usd cents w1,
    MarketState.estimate_total_value_usd usd_state 1%positive sample_world
      = (Ok usd, w1) /\
    (usd == cents # 100)%Q /\ (Qabs (usd - 1 * 10000) <= 1 # 200)%Q.
Proof.
  destruct (MarketState.estimate_total_value usd_state 1%positive "BTC" sample_world)
    as [r w1] eqn:Htotal.
  assert (Hr : exists total, r = Ok total /\ (total == 1)%Q).
  { vm_compute in Htotal. injection Htotal as <- _. eexists. split; reflexivity. }
  destruct Hr as (total & -> & Hone).
  destruct (estimate_total_value_usd_rounds usd_state 1%positive total 10000
              sample_world w1 Htotal) as (usd & cents & Hrun & Hc & Hclose).
  - reflexivity.
  - exists usd, cents, w1. split; [exact Hrun|]. split; [exact Hc|].
    now rewrite <- Hone.
Defined.

(** X10. Without a [USD_BTC] market the USD total cannot be given:
    once the holdings have been valued in BTC (warnings included),
    [estimate_total_value_usd] raises [KeyError] for that market, even for
    an empty portfolio. *)
Theorem estimate_total_value_usd_needs_usd_btc
    (self : MarketState) (held : loc) (total : Q) (w w1 : world) :
  MarketState.estimate_total_value self held "BTC" w = (Ok total, w1) ->
  MarketState.chart_data self !! "USD_BTC" = None ->
  MarketState.estimate_total_value_usd self held w
    = (Raise (KeyError "USD_BTC"), w1).
Proof.
  intros Htotal Hmissing. unfold MarketState.estimate_total_value_usd.
  rewrite (bind_ok _ _ _ _ _ Htotal). apply bind_raise.
  unfold MarketState.price, bind, getitem, raise. now rewrite Hmissing.
Qed.

Lemma estimate_total_value_usd_needs_usd_btc_witness :
  exists w1,
    MarketState.estimate_total_value_usd eth_state 1%positive sample_world
      = (Raise (KeyError "USD_BTC"), w1).
Proof.
  destruct (MarketState.estimate_total_value eth_state 1%positive "BTC" sample_world)
    as [r w1] eqn:Htotal.
  assert (Hr : exists total, r = Ok total).
  { vm_compute in Htotal. injection Htotal as <- _. eauto. }
  destruct Hr as (total & ->). exists w1.
  apply (estimate_total_value_usd_needs_usd_btc eth_state 1%positive total
           sample_world w1 Htotal).
  reflexivity.
Defined.

(** ** More on trade sizing *)

(** X11. On a buy-fiat trade whose holding is worth at least the target
    at a positive price, the sell amount is what brings the holding down
    to the target: after selling it, what is left of the sell coin is
    worth exactly [fiat_value_to_trade]. *)
Theorem set_sell_amount_buy_fiat_reaches_target
    (self : MarketState) (trade : ProposedTrade) (bp held : Q) (w : world) :
  sell_coin trade <> fiat trade ->
  buy_coin trade = fiat trade ->
  MarketState.price self (market_name trade) "weighted_average" w = (Ok bp, w) ->
  ~ (bp == 0)%Q ->
  MarketState.balance self (sell_coin trade) w = (Ok held, w) ->
  (0 < direction_price trade bp)%Q ->
  (fiat_value_to_trade trade <= held * direction_price trade bp)%Q ->
  exists trade' s,
    MarketState.set_sell_amount self trade w = (Ok trade', w) /\
    sell_amount trade' = Some s /\
    price trade' = Some (direction_price trade bp) /\
    (0 <= s)%Q /\
    ((held - s) * direction_price trade bp == fiat_value_to_trade trade)%Q.
Proof.
  intros Hs Hb Hp Hnz Hheld Hpos Hworth.
  set (p := direction_price trade bp) in *.
  set (s := ((held * p - fiat_value_to_trade trade) / p)%Q).
  assert (Hs0 : (0 <= s)%Q).
  { unfold s. apply Qle_shift_div_l; [exact Hpos|]. lra. }
  assert (Hclamp : clamped s = s).
  { unfold clamped. now rewrite (proj2 (Qltb_ge s 0) Hs0). }
  exists (sized trade bp s), s. split; [|repeat split].
  - apply set_sell_amount_ok; [exact Hp | exact Hnz |].
    rewrite (size_sell_leg_buy_fiat self (priced trade bp) p held w);
      try assumption; try reflexivity.
    + simpl. fold s. now rewrite Hclamp.
    + now apply direction_price_nonzero.
  - exact Hs0.
  - unfold s. field. intros H. rewrite H in Hpos. now apply Qlt_irrefl in Hpos.
Qed.

Lemma set_sell_amount_buy_fiat_reaches_target_witness :
  exists trade' s,
    MarketState.set_sell_amount eth_state
      (unsized "ETH" "BTC" "BTC" "BTC_ETH" "BTC" 2 (25 # 10000)) eth_world
      = (Ok trade', eth_world) /\
    sell_amount trade' = Some s /\ ((10 - s) * (1 / 2) == 2)%Q.
Proof.
  destruct (set_sell_amount_buy_fiat_reaches_target eth_state
              (unsized "ETH" "BTC" "BTC" "BTC_ETH" "BTC" 2 (25 # 10000))
              2 10 eth_world)
    as (trade' & s & Hrun & Hs & _ & _ & Htarget);
    [discriminate | reflexivity | reflexivity | discriminate | reflexivity
    | reflexivity | discriminate |].
  exists trade', s. repeat split; assumption.
Defined.

(** X12. A market price of zero cannot be traded on: for a trade that
    sells fiat, or that buys fiat out of a coin that is held,
    [set_sell_amount] raises [ZeroDivisionError] and logs nothing. *)
Theorem set_sell_amount_zero_price
    (self : MarketState) (trade : ProposedTrade) (bp : Q) (w : world) :
  MarketState.price self (market_name trade) "weighted_average" w = (Ok bp, w) ->
  (bp == 0)%Q ->
  sell_coin trade = fiat trade \/
  (buy_coin trade = fiat trade /\
   exists held, MarketState.balance self (sell_coin trade) w = (Ok held, w)) ->
  MarketState.set_sell_amount self trade w = (Raise ZeroDivisionError, w).
Proof.
  intros Hp Hzero Hshape. unfold MarketState.set_sell_amount.
  destruct (decide (buy_coin trade = market_base_currency trade)) as [Hbase|Hbase].
  - apply bind_raise. unfold MarketState.estimate_price.
    rewrite (bind_ok _ _ _ _ _ Hp). simpl.
    rewrite bool_decide_eq_true_2 by exact Hbase.
    apply bind_raise. now apply div_zero.
  - rewrite (bind_ok _ _ _ _ _
               (estimate_price_ok _ _ _ _ Hp (fun H => False_ind _ (Hbase H)))).
    assert (Hdir : direction_price trade bp = bp)
      by (unfold direction_price; now rewrite bool_decide_eq_false_2).
    destruct (decide (sell_coin trade = fiat trade)) as [Hs|Hs].
    + rewrite (bind_ok _ _ _ _ _
                 (size_sell_leg_sell_fiat self (priced trade bp) w Hs)).
      simpl. unfold bind at 1. unfold ret at 1.
      unfold bind at 1. unfold ret at 1.
      unfold bind at 1. unfold ret at 1.
      apply bind_raise. apply div_zero. now rewrite Hdir.
    + destruct Hshape as [Hs'|(Hb & held & Hheld)]; [contradiction|].
      apply bind_raise. unfold MarketState.size_sell_leg.
      rewrite bool_decide_eq_false_2 by exact Hs.
      rewrite bool_decide_eq_true_2 by exact Hb.
      simpl. rewrite (bind_ok _ _ _ _ _ Hheld).
      unfold bind at 1. unfold ret at 1.
      unfold bind at 1. unfold ret at 1.
      apply bind_raise. apply div_zero. now rewrite Hdir.
Qed.

Lemma set_sell_amount_zero_price_witness :
  MarketState.set_sell_amount zero_usd_state
    (unsized "USD" "BTC" "USD" "USD_BTC" "USD" 100 (25 # 10000)) sample_world
    = (Raise ZeroDivisionError, sample_world).
Proof.
  apply (set_sell_amount_zero_price zero_usd_state _ 0 sample_world).
  - reflexivity.
  - reflexivity.
  - left. reflexivity.
Defined.

(** X13. A trade on a market that is not in the chart data is not sized:
    [set_sell_amount] raises [KeyError] for the market name, whatever the
    shape of the trade, and [simulate_trades] on a batch that starts with
    such a trade raises it as well. *)
Theorem set_sell_amount_unknown_market
    (self : MarketState) (trade : ProposedTrade) (rest : list ProposedTrade)
    (held : gmap string Q) (w : world) :
  MarketState.chart_data self !! market_name trade = None ->
  heap w !! MarketState.balances self = Some held ->
  MarketState.set_sell_amount self trade w
    = (Raise (KeyError (market_name trade)), w) /\
  exists w',
    MarketState.simulate_trades self (trade :: rest) w
      = (Raise (KeyError (market_name trade)), w').
Proof.
  intros Hmissing Hheld.
  assert (Hraise : forall w0,
    MarketState.set_sell_amount self trade w0
      = (Raise (KeyError (market_name trade)), w0)).
  { intros w0. unfold MarketState.set_sell_amount. apply bind_raise.
    unfold MarketState.estimate_price. apply bind_raise.
    unfold MarketState.price, bind, getitem, raise. now rewrite Hmissing. }
  split; [apply Hraise|].
  rewrite (simulate_trades_unfold _ _ _ _ Hheld). simpl.
  eexists. apply bind_raise. unfold MarketState.simulate.
  apply bind_raise. apply Hraise.
Qed.

Lemma set_sell_amount_unknown_market_witness :
  MarketState.set_sell_amount usd_state sell_fiat_trade sample_world
    = (Raise (KeyError "BTC_ETH"), sample_world).
Proof.
  destruct (set_sell_amount_unknown_market usd_state sell_fiat_trade []
              (<["BTC" := 1%Q]> {[ "USD" := 0%Q ]}) sample_world) as [H _];
    [reflexivity | reflexivity | exact H].
Defined.

(** X14. What sizing writes: when [set_sell_amount] returns, the world is
    as before, the trade has its market price, price, sell amount and buy
    amount set, and every other attribute is as it was; in particular
    [bid_amount] and [ask_amount], which the legality check reads, are not
    filled in by the sizing. *)
Theorem set_sell_amount_writes
    (self : MarketState) (trade trade' : ProposedTrade) (w w' : world) :
  MarketState.set_sell_amount self trade w = (Ok trade', w') ->
  w' = w /\
  (exists bp,
     MarketState.price self (market_name trade) "weighted_average" w = (Ok bp, w) /\
     market_price trade' = Some bp /\
     price trade' = Some (direction_price trade bp)) /\
  is_Some (sell_amount trade') /\ is_Some (buy_amount trade') /\
  sell_coin trade' = sell_coin trade /\ buy_coin trade' = buy_coin trade /\
  from_coin trade' = from_coin trade /\ to_coin trade' = to_coin trade /\
  fiat trade' = fiat trade /\ market_name trade' = market_name trade /\
  market_base_currency trade' = market_base_currency trade /\
  fiat_value_to_trade trade' = fiat_value_to_trade trade /\
  fee trade' = fee trade /\
  bid_amount trade' = bid_amount trade /\ ask_amount trade' = ask_amount trade.
Proof.
  intros H. apply set_sell_amount_inv in H as [-> (bp & s & Hp & _ & _ & ->)].
  split; [reflexivity|]. split; [exists bp; now repeat split|].
  simpl. repeat split; eauto.
Qed.

Lemma set_sell_amount_writes_witness :
  bid_amount (sized sell_fiat_trade 2 100) = 0%Q /\
  sell_amount (sized sell_fiat_trade 2 100) = Some 100%Q.
Proof.
  destruct (set_sell_amount_writes eth_state sell_fiat_trade
              (sized sell_fiat_trade 2 100) sample_world sample_world)
    as (_ & _ & _ & _ & _ & _ & _ & _ & _ & _ & _ & _ & _ & Hbid & _);
    [vm_compute; reflexivity|].
  split; [exact Hbid | reflexivity].
Defined.

(** ** More on simulate_trades *)

Lemma simulate_step self proposed l bp s old running w :
  MarketState.set_sell_amount self proposed w = (Ok (sized proposed bp s), w) ->
  ~ (direction_price proposed bp == 0)%Q ->
  heap w !! l = Some running ->
  running !! sell_coin proposed = Some old ->
  exists w2,
    MarketState.simulate self proposed l w = (Ok l, w2) /\
    heap w2 !! l =
      Some (<[buy_coin proposed :=
                (default 0 (<[sell_coin proposed := old - s]> running
                              !! buy_coin proposed)
                 + s / direction_price proposed bp)%Q]>
              (<[sell_coin proposed := (old - s)%Q]> running)) /\
    log w2 = log w.
Proof.
  intros Hsized Hnz Hl Hsell.
  set (p := direction_price proposed bp) in *.
  set (debited := <[sell_coin proposed := (old - s)%Q]> running).
  unfold MarketState.simulate.
  rewrite (bind_ok _ _ _ _ _ Hsized). simpl.
  rewrite (bind_ok _ _ _ _ _ (dict_get_ok _ _ _ _ _ Hl Hsell)).
  unfold bind at 1. unfold ret at 1.
  rewrite (bind_ok _ _ _ _ _ (dict_set_ok _ _ _ _ _ Hl)).
  set (w1 := World _ _).
  assert (Hl1 : heap w1 !! l = Some debited) by apply lookup_insert_eq.
  rewrite (bind_ok _ _ _ _ _ (dict_mem_ok _ (buy_coin proposed) _ _ Hl1)).
  destruct (debited !! buy_coin proposed) as [held_buy|] eqn:Hbuy.
  - rewrite bool_decide_eq_true_2 by eauto.
    unfold bind at 1. unfold ret at 1.
    unfold bind at 1. unfold ret at 1.
    unfold bind at 1. unfold ret at 1.
    rewrite (bind_ok _ _ _ _ _ (div_ok s _ w1 Hnz)).
    rewrite (bind_ok _ _ _ _ _ (dict_get_ok _ _ _ _ _ Hl1 Hbuy)).
    rewrite (bind_ok _ _ _ _ _ (dict_set_ok _ (buy_coin proposed) _ _ _ Hl1)).
    unfold ret. eexists. repeat split; try reflexivity.
    simpl. apply lookup_insert_eq.
  - rewrite bool_decide_eq_false_2 by apply is_Some_None.
    rewrite (bind_ok _ _ _ _ _ (dict_set_ok _ (buy_coin proposed) 0%Q _ _ Hl1)).
    set (w2 := World _ _).
    assert (Hl2 : heap w2 !! l = Some (<[buy_coin proposed := 0%Q]> debited))
      by apply lookup_insert_eq.
    unfold bind at 1. unfold ret at 1.
    unfold bind at 1. unfold ret at 1.
    rewrite (bind_ok _ _ _ _ _ (div_ok s _ w2 Hnz)).
    rewrite (bind_ok _ _ _ _ _
               (dict_get_ok _ (buy_coin proposed) _ _ _ Hl2
                  (lookup_insert_eq _ _ _))).
    rewrite (bind_ok _ _ _ _ _ (dict_set_ok _ (buy_coin proposed) _ _ _ Hl2)).
    unfold ret. eexists. repeat split; try reflexivity.
    simpl. rewrite lookup_insert_eq. f_equal. apply insert_insert_eq.
Qed.

(** X15. One simulated trade, once sized, moves [sell_amount] out of the
    sell coin and [sell_amount / price] into the buy coin (entered at zero
    if it was not a key), and touches no other key.  The credit is the
    full [sell_amount / price]: it exceeds the trade's [buy_amount] by the
    fee share [sell_amount * fee / price]. *)
Theorem simulate_moves_amounts
    (self : MarketState) (proposed trade' : ProposedTrade) (l : loc)
    (old : Q) (running : gmap string Q) (w w' : world) :
  MarketState.set_sell_amount self proposed w = (Ok trade', w') ->
  heap w !! l = Some running ->
  running !! sell_coin proposed = Some old ->
  exists s p b w2,
    sell_amount trade' = Some s /\ price trade' = Some p /\
    buy_amount trade' = Some b /\
    MarketState.simulate self proposed l w = (Ok l, w2) /\
    heap w2 !! l =
      Some (<[buy_coin proposed :=
                (default 0 (<[sell_coin proposed := old - s]> running
                              !! buy_coin proposed) + s / p)%Q]>
              (<[sell_coin proposed := (old - s)%Q]> running)) /\
    log w2 = log w /\
    (s / p == b + s * fee proposed / p)%Q.
Proof.
  intros Hsized Hl Hsell.
  destruct (set_sell_amount_inv _ _ _ _ _ Hsized)
    as [-> (bp & s & _ & Hnz & _ & ->)].
  destruct (simulate_step _ _ l _ _ _ _ _ Hsized Hnz Hl Hsell)
    as (w2 & Hrun & Hheap & Hlog).
  exists s, (direction_price proposed bp),
         ((s - s * fee proposed) / direction_price proposed bp)%Q, w2.
  repeat split; try assumption. field. exact Hnz.
Qed.

Lemma simulate_moves_amounts_witness :
  exists s p b w2,
    sell_amount (sized sell_fiat_trade 2 100) = Some s /\
    price (sized sell_fiat_trade 2 100) = Some p /\
    buy_amount (sized sell_fiat_trade 2 100) = Some b /\
    MarketState.simulate eth_state sell_fiat_trade 1%positive eth_world
      = (Ok 1%positive, w2) /\
    (s / p == b + s * (25 # 10000) / p)%Q.
Proof.
  destruct (simulate_moves_amounts eth_state sell_fiat_trade
              (sized sell_fiat_trade 2 100) 1%positive 1
              (<["BTC" := 1%Q]> {[ "ETH" := 10%Q ]}) eth_world eth_world)
    as (s & p & b & w2 & Hs & Hp & Hb & Hrun & _ & _ & Hfee);
    [vm_compute; reflexivity | reflexivity | reflexivity |].
  exists s, p, b, w2. repeat split; assumption.
Defined.

Lemma simulate_ok_dom self proposed l running w l' w2 :
  heap w !! l = Some running ->
  MarketState.simulate self proposed l w = (Ok l', w2) ->
  exists running',
    heap w2 !! l = Some running' /\
    dom running' = dom running ∪ {[ buy_coin proposed ]}.
Proof.
  intros Hl Hrun. pose proof Hrun as Hrun'.
  unfold MarketState.simulate in Hrun'.
  apply bind_ok_inv in Hrun' as (trade' & w1 & Hsized & Hrest).
  destruct (set_sell_amount_inv _ _ _ _ _ Hsized) as [-> (bp & s & _ & Hnz & _ & ->)].
  apply bind_ok_inv in Hrest as (old & w1 & Hget & _).
  apply dict_get_ok_inv in Hget as [_ (m & Hm & Hold)].
  simpl in Hold. rewrite Hl in Hm. injection Hm as <-.
  destruct (simulate_step _ _ l _ _ old running _ Hsized Hnz Hl Hold)
    as (w3 & Hrun3 & Hheap & _).
  rewrite Hrun in Hrun3. injection Hrun3 as _ <-.
  eexists. split; [exact Hheap|].
  rewrite !dom_insert_L.
  assert (sell_coin proposed ∈ dom running) by (apply elem_of_dom; eauto).
  set_solver.
Qed.

Lemma simulate_loop_dom self trades : forall l running w l' w',
  heap w !! l = Some running ->
  simulate_loop self trades l w = (Ok l', w') ->
  exists running',
    heap w' !! l = Some running' /\
    dom running' = dom running ∪ list_to_set (buy_coin <$> trades).
Proof.
  induction trades as [|t rest IH]; intros l running w l' w' Hl Hrun; simpl in Hrun.
  - unfold ret in Hrun. injection Hrun as _ <-. exists running.
    split; [exact Hl|]. simpl. set_solver.
  - apply bind_ok_inv in Hrun as (l1 & w1 & Hone & Hrest).
    pose proof (simulate_returns _ _ _ _ _ _ Hone) as ->.
    destruct (simulate_ok_dom _ _ _ _ _ _ _ Hl Hone) as (r1 & Hl1 & Hdom1).
    destruct (IH _ _ _ _ _ Hl1 Hrest) as (r2 & Hl2 & Hdom2).
    exists r2. split; [exact Hl2|]. rewrite Hdom2, Hdom1. simpl. set_solver.
Qed.

(** X16. The keys of the balances [simulate_trades] returns are the keys
    of the market state's balances together with the buy coins of the
    trades: no key is ever dropped, and nothing else is added. *)
Theorem simulate_trades_keys
    (self : MarketState) (proposed_trades : list ProposedTrade)
    (held : gmap string Q) (l : loc) (w w' : world) :
  heap w !! MarketState.balances self = Some held ->
  MarketState.simulate_trades self proposed_trades w = (Ok l, w') ->
  exists projected,
    heap w' !! l = Some projected /\
    dom projected = dom held ∪ list_to_set (buy_coin <$> proposed_trades).
Proof.
  intros Hheld Hrun.
  rewrite (simulate_trades_unfold _ _ _ _ Hheld) in Hrun.
  pose proof (simulate_loop_returns _ _ _ _ _ _ Hrun) as ->.
  apply (simulate_loop_dom _ _ _ _ _ _ _ (lookup_insert_eq _ _ _) Hrun).
Qed.

Lemma simulate_trades_keys_witness :
  exists l w' projected,
    MarketState.simulate_trades eth_state [sell_fiat_trade] sample_world = (Ok l, w') /\
    heap w' !! l = Some projected /\
    dom projected = {[ "BTC"; "USD"; "ETH" ]}.
Proof.
  destruct (MarketState.simulate_trades eth_state [sell_fiat_trade] sample_world)
    as [[l|e] w'] eqn:Hrun; [|vm_compute in Hrun; discriminate Hrun].
  destruct (simulate_trades_keys eth_state [sell_fiat_trade]
              (<["BTC" := 1%Q]> {[ "USD" := 0%Q ]}) l sample_world w' eq_refl Hrun)
    as (projected & Hl & Hdom).
  exists l, w', projected. split; [reflexivity|]. split; [exact Hl|].
  rewrite Hdom. simpl. rewrite dom_insert_L, dom_singleton_L. set_solver.
Defined.

Lemma size_sell_leg_fst self trade w w1 :
  heap w1 !! MarketState.balances self = heap w !! MarketState.balances self ->
  fst (MarketState.size_sell_leg self trade w1)
  = fst (MarketState.size_sell_leg self trade w).
Proof.
  intros Hsame. unfold MarketState.size_sell_leg.
  destruct (bool_decide (sell_coin trade = fiat trade)); [reflexivity|].
  destruct (bool_decide (buy_coin trade = fiat trade)); [|reflexivity].
  unfold MarketState.balance, dict_get, bind, deref, num, div, ret, raise.
  rewrite Hsame.
  destruct (heap w !! MarketState.balances self) as [items|]; [|reflexivity].
  destruct (items !! sell_coin trade); [|reflexivity].
  destruct (price trade) as [p|]; [|reflexivity].
  destruct (Qeq_bool p 0); [reflexivity|].
  destruct (Qltb _ 0); reflexivity.
Qed.

Lemma set_sell_amount_fst self trade w w1 :
  heap w1 !! MarketState.balances self = heap w !! MarketState.balances self ->
  fst (MarketState.set_sell_amount self trade w1)
  = fst (MarketState.set_sell_amount self trade w).
Proof.
  intros Hsame. unfold MarketState.set_sell_amount.
  destruct (estimate_price_pure self trade) as [r Hr].
  unfold bind at 1 7. rewrite !Hr. destruct r as [t1|e]; [|reflexivity].
  pose proof (size_sell_leg_fst self t1 w w1 Hsame) as Hleg.
  unfold bind at 1 6.
  destruct (MarketState.size_sell_leg self t1 w1) as [[t2|e2] w1'],
           (MarketState.size_sell_leg self t1 w) as [[t2'|e2'] w'];
    simpl in Hleg; try discriminate Hleg.
  - injection Hleg as ->. unfold bind, num, div, ret, raise.
    destruct (sell_amount t2'); [|reflexivity].
    destruct (price t2'); [|reflexivity].
    destruct (Qeq_bool _ 0); reflexivity.
  - exact Hleg.
Qed.

(** X17. Inside a batch every trade is sized against the balances of the
    market state, not against the running balances: after any prefix of
    trades has been simulated, [set_sell_amount] gives a trade the same
    amounts (or the same error) as it gives it before the batch. *)
Theorem simulate_sizes_against_snapshot
    (self : MarketState) (pre : list ProposedTrade) (proposed : ProposedTrade)
    (held : gmap string Q) (l : loc) (w w1 : world) :
  heap w !! MarketState.balances self = Some held ->
  MarketState.simulate_trades self pre w = (Ok l, w1) ->
  fst (MarketState.set_sell_amount self proposed w1)
  = fst (MarketState.set_sell_amount self proposed w).
Proof.
  intros Hheld Hpre. apply set_sell_amount_fst.
  destruct (simulate_trades_store _ _ _ _ _ _ Hheld Hpre) as (Hold & _ & _).
  apply Hold. eauto.
Qed.

Lemma simulate_sizes_against_snapshot_witness :
  fst (MarketState.set_sell_amount eth_state buy_fiat_trade
         (snd (MarketState.simulate_trades eth_state [sell_fiat_trade] eth_world)))
  = fst (MarketState.set_sell_amount eth_state buy_fiat_trade eth_world).
Proof.
  destruct (MarketState.simulate_trades eth_state [sell_fiat_trade] eth_world)
    as [[l|e] w1] eqn:Hrun; [|vm_compute in Hrun; discriminate Hrun].
  apply (simulate_sizes_against_snapshot eth_state [sell_fiat_trade]
           buy_fiat_trade (<["BTC" := 1%Q]> {[ "ETH" := 10%Q ]}) l eth_world w1).
  - reflexivity.
  - exact Hrun.
Defined.

(** ** More on the legality filter *)

Lemma is_legal_outcome proposed market_state w answer w' :
  MarketAdapter.is_legal proposed market_state w = (Ok answer, w') ->
  (answer = true -> w' = w) /\
  (answer = false ->
   exists msg, w' = World (heap w) (log w ++ [Printed msg [proposed]])).
Proof.
  unfold MarketAdapter.is_legal, print, emit, dict_get, bind, deref, ret, raise.
  destruct (MarketAdapter.falsy (price proposed)).
  { intros [= <- <-]. split; [discriminate | eauto]. }
  destruct (heap w !! MarketState.balances market_state) as [items|]; [|discriminate].
  destruct (items !! from_coin proposed) as [held|]; [|discriminate].
  destruct (Qltb held (bid_amount proposed)); [discriminate|].
  destruct (_ || _).
  { intros [= <- <-]. split; [discriminate | eauto]. }
  destruct (_ || _).
  { intros [= <- <-]. split; [discriminate | eauto]. }
  destruct (negb _).
  { intros [= <- <-]. split; [discriminate | eauto]. }
  intros [= <- <-]. split; [reflexivity | discriminate].
Qed.

Lemma is_legal_fst proposed market_state w w1 :
  heap w1 = heap w ->
  fst (MarketAdapter.is_legal proposed market_state w1)
  = fst (MarketAdapter.is_legal proposed market_state w).
Proof.
  intros Hsame.
  unfold MarketAdapter.is_legal, print, emit, dict_get, bind, deref, ret, raise.
  destruct (MarketAdapter.falsy (price proposed)); [reflexivity|].
  rewrite Hsame.
  destruct (heap w !! MarketState.balances market_state) as [items|]; [|reflexivity].
  destruct (items !! from_coin proposed) as [held|]; [|reflexivity].
  destruct (Qltb held (bid_amount proposed)); [reflexivity|].
  destruct (_ || _); [reflexivity|].
  destruct (_ || _); [reflexivity|].
  destruct (negb _); reflexivity.
Qed.

(** X18. For a trade that does not bid more than is held of its
    [from_coin], [is_legal] always answers.  It answers true, printing
    nothing, exactly when the trade has a price, neither amount is negative,
    the amount on a fiat leg is at least 0.0001 and the market is in the
    chart data; otherwise it answers false and prints one warning. *)
Theorem is_legal_decides
    (market_state : MarketState) (proposed : ProposedTrade)
    (items : gmap string Q) (held : Q) (w : world) :
  heap w !! MarketState.balances market_state = Some items ->
  items !! from_coin proposed = Some held ->
  (bid_amount proposed <= held)%Q ->
  exists answer w',
    MarketAdapter.is_legal proposed market_state w = (Ok answer, w') /\
    (answer = true <->
     MarketAdapter.falsy (price proposed) = false /\
     (0 <= bid_amount proposed)%Q /\ (0 <= ask_amount proposed)%Q /\
     (from_coin proposed = fiat proposed -> (1 # 10000 <= bid_amount proposed)%Q) /\
     (to_coin proposed = fiat proposed -> (1 # 10000 <= ask_amount proposed)%Q) /\
     is_Some (MarketState.chart_data market_state !! market_name proposed)) /\
    (answer = true -> w' = w) /\
    (answer = false ->
     exists msg, w' = World (heap w) (log w ++ [Printed msg [proposed]])).
Proof.
  intros Hheap Hheld Hbid.
  destruct (MarketAdapter.is_legal proposed market_state w) as [r w'] eqn:Hrun.
  pose proof Hrun as Hrun'.
  unfold MarketAdapter.is_legal in Hrun'.
  destruct (MarketAdapter.falsy (price proposed)) eqn:Hprice.
  { injection Hrun' as <- <-. exists false. eexists.
    split; [reflexivity|]. split; [|split; [discriminate | eauto]].
    split; [discriminate | intros [? _]; discriminate]. }
  rewrite (bind_ok _ _ _ _ _ (dict_get_ok _ _ _ _ _ Hheap Hheld)) in Hrun'.
  rewrite (proj2 (Qltb_ge _ _) Hbid) in Hrun'.
  assert (Hok : exists answer, r = Ok answer /\
    (answer = true <->
     ((Qltb (bid_amount proposed) 0 || Qltb (ask_amount proposed) 0) = false /\
      ((bool_decide (from_coin proposed = fiat proposed)
          && Qltb (bid_amount proposed) (1 # 10000))
       || (bool_decide (to_coin proposed = fiat proposed)
             && Qltb (ask_amount proposed) (1 # 10000))) = false /\
      MarketState.in_chart market_state (market_name proposed) = true))).
  { destruct (Qltb (bid_amount proposed) 0 || Qltb (ask_amount proposed) 0)
      eqn:Hneg; try rewrite Hneg in Hrun'.
    { injection Hrun' as <- _. exists false. split; [reflexivity|].
      split; [discriminate | intros [? _]; discriminate]. }
    destruct ((bool_decide (from_coin proposed = fiat proposed)
                 && Qltb (bid_amount proposed) (1 # 10000))
              || (bool_decide (to_coin proposed = fiat proposed)
                    && Qltb (ask_amount proposed) (1 # 10000)))
      eqn:Hdust; try rewrite Hdust in Hrun'.
    { injection Hrun' as <- _. exists false. split; [reflexivity|].
      split; [discriminate | intros (_ & ? & _); discriminate]. }
    destruct (MarketState.in_chart market_state (market_name proposed))
      eqn:Hchart; try rewrite Hchart in Hrun'; simpl in Hrun';
      injection Hrun' as <- _.
    - exists true. split; [reflexivity|]. now split.
    - exists false. split; [reflexivity|].
      split; [discriminate | intros (_ & _ & ?); discriminate]. }
  destruct Hok as (answer & -> & Hanswer).
  exists answer, w'. split; [reflexivity|].
  split; [|exact (is_legal_outcome _ _ _ _ _ Hrun)].
  rewrite Hanswer, orb_false_iff, orb_false_iff, !andb_false_iff,
    !bool_decide_eq_false, !Qltb_ge, in_chart_true.
  split.
  - intros ((Hb & Ha) & (Hfrom & Hto) & Hc). repeat split; try assumption.
    + intros Heq. destruct Hfrom; [contradiction | assumption].
    + intros Heq. destruct Hto; [contradiction | assumption].
  - intros (_ & Hb & Ha & Hfrom & Hto & Hc). repeat split; try assumption.
    + destruct (decide (from_coin proposed = fiat proposed)); auto.
    + destruct (decide (to_coin proposed = fiat proposed)); auto.
Qed.

Lemma is_legal_decides_witness :
  exists msg,
    MarketAdapter.is_legal dust_trade eth_state sample_world
      = (Ok false,
         World (heap sample_world) (log sample_world ++ [Printed msg [dust_trade]])).
Proof.
  destruct (is_legal_decides eth_state dust_trade
              (<["BTC" := 1%Q]> {[ "USD" := 0%Q ]}) 1 sample_world)
    as (answer & w' & Hrun & Hiff & _ & Hfalse);
    [reflexivity | reflexivity | discriminate |].
  destruct answer.
  - exfalso. destruct (proj1 Hiff eq_refl) as (_ & _ & _ & Hdust & _).
    now apply Hdust.
  - destruct (Hfalse eq_refl) as (msg & ->). now exists msg.
Defined.

(** X19. A priced trade whose [from_coin] is not a key of the balances is
    not filtered out: the balance lookup raises [KeyError] for that coin,
    and so does taking the trades out of a [filter_legal] generator that
    starts with it. *)
Theorem is_legal_unheld_from_coin
    (market_state : MarketState) (proposed : ProposedTrade)
    (rest : list ProposedTrade) (items : gmap string Q) (w : world) :
  MarketAdapter.falsy (price proposed) = false ->
  heap w !! MarketState.balances market_state = Some items ->
  items !! from_coin proposed = None ->
  MarketAdapter.is_legal proposed market_state w
    = (Raise (KeyError (from_coin proposed)), w) /\
  @MarketAdapter.exhaust MarketAdapter.base
    (MarketAdapter.filter_legal (proposed :: rest) market_state) w
    = (Raise (KeyError (from_coin proposed)), w).
Proof.
  intros Hprice Hheap Hmissing.
  assert (H : MarketAdapter.is_legal proposed market_state w
              = (Raise (KeyError (from_coin proposed)), w)).
  { unfold MarketAdapter.is_legal. rewrite Hprice. apply bind_raise.
    now apply (dict_get_missing _ _ _ items). }
  split; [exact H|].
  unfold MarketAdapter.exhaust, MarketAdapter.filter_legal. simpl.
  now apply bind_raise.
Qed.

Lemma is_legal_unheld_from_coin_witness :
  MarketAdapter.is_legal unheld_trade eth_state sample_world
    = (Raise (KeyError "XMR"), sample_world).
Proof.
  destruct (is_legal_unheld_from_coin eth_state unheld_trade []
              (<["BTC" := 1%Q]> {[ "USD" := 0%Q ]}) sample_world) as [H _];
    [reflexivity | reflexivity | reflexivity | exact H].
Defined.

(** X20. Whatever [is_legal] an adapter brings, the trades that come out
    of its [filter_legal] are some of the trades that went in, in the
    order they went in. *)
Theorem filter_legal_keeps_order
    (self : Adapter.ops) (proposed_trades survivors : list ProposedTrade)
    (market_state : MarketState) (w w' : world) :
  @MarketAdapter.exhaust self
    (MarketAdapter.filter_legal proposed_trades market_state) w
    = (Ok survivors, w') ->
  sublist survivors proposed_trades.
Proof.
  unfold MarketAdapter.exhaust, MarketAdapter.filter_legal. simpl.
  revert survivors w w'.
  induction proposed_trades as [|p rest IH]; intros survivors w w' H; simpl in H.
  - unfold ret in H. injection H as <- _. constructor.
  - apply bind_ok_inv in H as (legal & w1 & _ & H).
    apply bind_ok_inv in H as (out & w2 & Hrest & H).
    unfold ret in H. injection H as <- _.
    apply IH in Hrest. destruct legal.
    + now apply sublist_skip.
    + now apply sublist_cons.
Qed.

Lemma filter_legal_keeps_order_witness :
  sublist [modest_trade] [dust_trade; modest_trade].
Proof.
  apply (filter_legal_keeps_order MarketAdapter.base [dust_trade; modest_trade]
           [modest_trade] eth_state sample_world
           (snd (@MarketAdapter.exhaust MarketAdapter.base
                   (MarketAdapter.filter_legal [dust_trade; modest_trade] eth_state)
                   sample_world))).
  vm_compute. reflexivity.
Defined.

Lemma exhaust_from_base todo market_state : forall w survivors w',
  @MarketAdapter.exhaust_from MarketAdapter.base market_state todo w
    = (Ok survivors, w') ->
  heap w' = heap w /\
  (forall p, p ∈ survivors ->
     fst (MarketAdapter.is_legal p market_state w) = Ok true) /\
  exists warnings : list event,
    log w' = (log w ++ warnings)%list /\
    (length warnings + length survivors = length todo)%nat.
Proof.
  induction todo as [|p rest IH]; intros w survivors w' H; simpl in H.
  - unfold ret in H. injection H as <- <-. split; [reflexivity|].
    split; [intros p Hp; inversion Hp|].
    exists []. split; [now rewrite app_nil_r | reflexivity].
  - apply bind_ok_inv in H as (legal & w1 & Hlegal & H).
    apply bind_ok_inv in H as (out & w2 & Hrest & H).
    unfold ret in H. injection H as <- <-.
    change (@Adapter.is_legal MarketAdapter.base p market_state w = (Ok legal, w1))
      with (MarketAdapter.is_legal p market_state w = (Ok legal, w1)) in Hlegal.
    destruct (is_legal_outcome _ _ _ _ _ Hlegal) as [Htrue Hfalse].
    destruct (IH _ _ _ Hrest) as (Hheap & Hall & warnings & Hlog & Hlen).
    destruct legal.
    + rewrite (Htrue eq_refl) in *. split; [exact Hheap|]. split.
      * intros q Hq. apply elem_of_cons in Hq as [-> | Hq]; [|now apply Hall].
        now rewrite Hlegal.
      * exists warnings. split; [exact Hlog|]. simpl. lia.
    + destruct (Hfalse eq_refl) as (msg & ->). simpl in *.
      split; [exact Hheap|]. split.
      * intros q Hq. rewrite <- (Hall q Hq). symmetry. now apply is_legal_fst.
      * exists (Printed msg [p] :: warnings).
        split; [now rewrite Hlog, <- app_assoc | simpl; lia].
Qed.

(** X21. With the adapter's own [is_legal], when the whole batch can be
    filtered: every trade that comes out passes [is_legal] on the balances
    as they were, every trade that is dropped leaves exactly one printed
    warning, and no balance is changed. *)
Theorem filter_legal_survivors
    (proposed_trades survivors : list ProposedTrade)
    (market_state : MarketState) (w w' : world) :
  @MarketAdapter.exhaust MarketAdapter.base
    (MarketAdapter.filter_legal proposed_trades market_state) w
    = (Ok survivors, w') ->
  heap w' = heap w /\
  (forall p, p ∈ survivors ->
     fst (MarketAdapter.is_legal p market_state w) = Ok true) /\
  exists warnings : list event,
    log w' = (log w ++ warnings)%list /\
    (length warnings + length survivors = length proposed_trades)%nat.
Proof.
  unfold MarketAdapter.exhaust, MarketAdapter.filter_legal. simpl.
  apply exhaust_from_base.
Qed.

Lemma filter_legal_survivors_witness :
  exists w',
    @MarketAdapter.exhaust MarketAdapter.base
      (MarketAdapter.filter_legal [dust_trade; modest_trade] eth_state) sample_world
      = (Ok [modest_trade], w') /\
    exists warnings : list event, log w' = warnings /\ length warnings = 1%nat.
Proof.
  eexists. split; [vm_compute; reflexivity|].
  match goal with
  | |- exists warnings, log ?w' = _ /\ _ =>
      destruct (filter_legal_survivors [dust_trade; modest_trade] [modest_trade]
                  eth_state sample_world w')
        as (_ & _ & warnings & Hlog & Hlen); [vm_compute; reflexivity|]
  end.
  exists warnings. split; [exact Hlog|]. simpl in Hlen. lia.
Defined.
